(** * Mock test servers: request routing and the redirect / bytes fixtures

    A shallow embedding of the request handlers of the test-server
    collection:

    - [getTargetURL] and [responseHandler] of [index.js] (the router that
      either proxies a request to a fixture or answers with a JSON echo);
    - the ['request'] listeners installed by [createRedirectServer] and
      [createBytesServer] of the servers module.

    JavaScript strings are lists of characters, the regular expressions of
    the source are kept as regular expressions and run by derivatives, the
    calls made on the response object are threaded through a small state
    and exception monad that stands for Node's [http.ServerResponse]. *)

From Stdlib Require Import ZArith List Ascii String Bool Lia.
From stdpp Require Import base gmap strings list.
Import ListNotations.

Local Open Scope Z_scope.
Local Open Scope list_scope.

(** ** JavaScript strings *)

(** The URL and the header values handed over by Node's HTTP parser are
    latin-1 decoded octets, so one character is one [ascii]. *)
Definition jsstring : Type := list ascii.

Definition str (s : string) : jsstring := list_ascii_of_string s.

Definition slash : ascii := "/"%char.

(** [String.prototype.split] with a one-character separator: the result is
    never empty, [''.split('/')] is [['']]. *)
Fixpoint split (sep : ascii) (s : jsstring) : list jsstring :=
  match s with
  | [] => [[]]
  | c :: s' =>
      if Ascii.eqb c sep then [] :: split sep s'
      else match split sep s' with
           | t :: ts => (c :: t) :: ts
           | [] => [[c]]
           end
  end.

(** [Array.prototype.join] with a one-character separator. *)
Fixpoint join (sep : ascii) (l : list jsstring) : jsstring :=
  match l with
  | [] => []
  | [t] => t
  | t :: ts => t ++ sep :: join sep ts
  end.

(** [a.slice(0, -2)]: everything but the last two elements. *)
Definition slice_0_m2 {A} (a : list A) : list A :=
  firstn (length a - 2)%nat a.

(** [a[i]] for an index computed as [a.length - k]; a negative or
    out-of-range index reads [undefined], here [None]. *)
Definition index_from_end {A} (a : list A) (k : nat) : option A :=
  if (length a <? k)%nat then None else nth_error a (length a - k).

(** [s.startsWith(p)]. *)
Fixpoint startsWith (s p : jsstring) : bool :=
  match p, s with
  | [], _ => true
  | _ :: _, [] => false
  | a :: p', b :: s' => Ascii.eqb a b && startsWith s' p'
  end.

(** [s === t] on strings. *)
Definition str_eqb (s t : jsstring) : bool := bool_decide (s = t).

(** ** Regular expressions *)

Module RegExp.

Inductive regex : Type :=
| Void                                  (* matches nothing *)
| Eps                                   (* the empty match *)
| Class (p : ascii -> bool)             (* one character of a class *)
| Cat (r1 r2 : regex)
| Alt (r1 r2 : regex)
| Star (r : regex).

Definition Chr (c : ascii) : regex := Class (Ascii.eqb c).

(** [\d]: the ten ASCII digits. *)
Definition is_digit (c : ascii) : bool :=
  let n := nat_of_ascii c in ((48 <=? n) && (n <=? 57))%nat.
Definition Digit : regex := Class is_digit.

Definition Any : regex := Class (fun _ => true).
Definition Plus (r : regex) : regex := Cat r (Star r).

Fixpoint Lit (s : jsstring) : regex :=
  match s with
  | [] => Eps
  | c :: s' => Cat (Chr c) (Lit s')
  end.

Fixpoint nullable (r : regex) : bool :=
  match r with
  | Void => false
  | Eps => true
  | Class _ => false
  | Cat r1 r2 => nullable r1 && nullable r2
  | Alt r1 r2 => nullable r1 || nullable r2
  | Star _ => true
  end.

Fixpoint deriv (c : ascii) (r : regex) : regex :=
  match r with
  | Void => Void
  | Eps => Void
  | Class p => if p c then Eps else Void
  | Cat r1 r2 =>
      if nullable r1 then Alt (Cat (deriv c r1) r2) (deriv c r2)
      else Cat (deriv c r1) r2
  | Alt r1 r2 => Alt (deriv c r1) (deriv c r2)
  | Star r1 => Cat (deriv c r1) (Star r1)
  end.

(** The whole input belongs to the language of [r]. *)
Fixpoint matches (r : regex) (s : jsstring) : bool :=
  match s with
  | [] => nullable r
  | c :: s' => matches (deriv c r) s'
  end.

(** [/r$/.test(s)]: no [^], so the match may start anywhere; without the
    [m] flag [$] is the end of the input. *)
Definition test_to_end (r : regex) (s : jsstring) : bool :=
  matches (Cat (Star Any) r) s.

(** [/^r$/.test(s)]. *)
Definition test_whole (r : regex) (s : jsstring) : bool := matches r s.

(** The language of a regular expression, as a relation. *)
Inductive lang : regex -> jsstring -> Prop :=
| lang_eps : lang Eps []
| lang_class p c : p c = true -> lang (Class p) [c]
| lang_cat r1 r2 s1 s2 : lang r1 s1 -> lang r2 s2 -> lang (Cat r1 r2) (s1 ++ s2)
| lang_alt_l r1 r2 s : lang r1 s -> lang (Alt r1 r2) s
| lang_alt_r r1 r2 s : lang r2 s -> lang (Alt r1 r2) s
| lang_star_nil r : lang (Star r) []
| lang_star_cons r s1 s2 : lang r s1 -> lang (Star r) s2 -> lang (Star r) (s1 ++ s2).

End RegExp.
Import RegExp.

(** [/\/\d+\/\d{3}$/] without its end anchor. *)
Definition re_redirect : regex :=
  Cat (Chr slash) (Cat (Plus Digit) (Cat (Chr slash) (Cat Digit (Cat Digit Digit)))).

(** [/^\/bytes\/\d+$/] without its anchors. *)
Definition re_bytes : regex :=
  Cat (Lit (str "/bytes/")) (Plus Digit).

(** ** JavaScript numbers

    A Number is a double.  The embedding tracks exactly the values on which
    double arithmetic is integer arithmetic: [NaN] and the integers of
    magnitude at most [2^53].  Every other Number (a fraction, a larger
    integer, an infinity) is [Inexact]; a handler that would have to look at
    such a value leaves the embedding (outcome [Beyond] below). *)

Definition MAX_SAFE_INTEGER : Z := 2 ^ 53 - 1.

Inductive number : Type :=
| NaN
| Int (z : Z).

Inductive approx (A : Type) : Type :=
| Exactly (a : A)
| Inexact.
Arguments Exactly {A} a.
Arguments Inexact {A}.

Definition safe_int (z : Z) : approx number :=
  if Z.abs z <=? MAX_SAFE_INTEGER then Exactly (Int z) else Inexact.

(** White space of [StrWhiteSpaceChar] in the latin-1 range: TAB, LF, VT,
    FF, CR, SP and NBSP. *)
Definition is_white (c : ascii) : bool :=
  let n := nat_of_ascii c in
  (((9 <=? n) && (n <=? 13)) || (n =? 32) || (n =? 160))%nat.

Fixpoint trim_start (s : jsstring) : jsstring :=
  match s with
  | c :: s' => if is_white c then trim_start s' else s
  | [] => []
  end.

Definition trim (s : jsstring) : jsstring :=
  rev (trim_start (rev (trim_start s))).

(** The longest prefix of characters in a class, and what follows it. *)
Fixpoint span (p : ascii -> bool) (s : jsstring) : jsstring * jsstring :=
  match s with
  | c :: s' => if p c then let (a, b) := span p s' in (c :: a, b) else ([], s)
  | [] => ([], [])
  end.

Definition digit_val (c : ascii) : Z := Z.of_nat (nat_of_ascii c) - 48.

(** The mathematical value of a string of decimal digits. *)
Definition digits_value (ds : jsstring) : Z :=
  fold_left (fun acc c => 10 * acc + digit_val c) ds 0.

(** Value of one digit of a radix up to 16, if it is one. *)
Definition radix_digit (radix : Z) (c : ascii) : option Z :=
  let n := Z.of_nat (nat_of_ascii c) in
  let v := if (48 <=? n) && (n <=? 57) then n - 48
           else if (97 <=? n) && (n <=? 102) then n - 87
           else if (65 <=? n) && (n <=? 70) then n - 55
           else 16 in
  if v <? radix then Some v else None.

Definition radix_value (radix : Z) (ds : jsstring) : Z :=
  fold_left (fun acc c => radix * acc + default 0 (radix_digit radix c)) ds 0.

Definition strip_sign (s : jsstring) : bool * jsstring :=
  match s with
  | "-"%char :: s' => (true, s')
  | "+"%char :: s' => (false, s')
  | _ => (false, s)
  end.

Definition signed (negative : bool) (z : Z) : Z := if negative then - z else z.

(** [parseInt(v, 10)].  [undefined] reads as the string ['undefined'].
    Leading white space and a sign are skipped, the longest run of decimal
    digits is read, and the result is [NaN] when that run is empty. *)
Definition parseInt10 (v : option jsstring) : approx number :=
  match v with
  | None => Exactly NaN
  | Some s =>
      let (negative, s1) := strip_sign (trim_start s) in
      let (ds, _) := span is_digit s1 in
      match ds with
      | [] => Exactly NaN
      | _ => safe_int (signed negative (digits_value ds))
      end
  end.

(** The exponent part [e±ddd] of a decimal literal, up to the end of the
    string; [None] when the text is not one. *)
Definition exponent_part (s : jsstring) : option Z :=
  match s with
  | [] => Some 0
  | c :: s' =>
      if Ascii.eqb c "e" || Ascii.eqb c "E" then
        let (negative, s2) := strip_sign s' in
        let (ds, rest) := span is_digit s2 in
        match ds, rest with
        | _ :: _, [] => Some (signed negative (digits_value ds))
        | _, _ => None
        end
      else None
  end.

(** The value [m * 10^e] of a decimal literal, as a tracked Number. *)
Definition decimal_number (negative : bool) (m e : Z) : approx number :=
  if m =? 0 then Exactly (Int 0)
  else if 0 <=? e then safe_int (signed negative (m * 10 ^ e))
  else if m mod 10 ^ (- e) =? 0 then safe_int (signed negative (m / 10 ^ (- e)))
  else Inexact.

(** [StrUnsignedDecimalLiteral] other than [Infinity]: [d+], [d+.d*] or
    [.d+], each with an optional exponent. *)
Definition unsigned_decimal (negative : bool) (s : jsstring) : approx number :=
  let (ip, r1) := span is_digit s in
  let '(fp, r2) :=
    match r1 with
    | "."%char :: r => span is_digit r
    | _ => ([], r1)
    end in
  match ip ++ fp, exponent_part r2 with
  | _ :: _, Some e =>
      decimal_number negative (digits_value (ip ++ fp)) (e - Z.of_nat (length fp))
  | _, _ => Exactly NaN
  end.

(** [0x], [0o] and [0b] literals (no sign allowed). *)
Definition non_decimal (s : jsstring) : option (approx number) :=
  match s with
  | "0"%char :: p :: ds =>
      let radix :=
        if Ascii.eqb p "x" || Ascii.eqb p "X" then 16
        else if Ascii.eqb p "o" || Ascii.eqb p "O" then 8
        else if Ascii.eqb p "b" || Ascii.eqb p "B" then 2
        else 0 in
      if radix =? 0 then None
      else match ds with
           | [] => Some (Exactly NaN)
           | _ => if forallb (fun c => bool_decide (is_Some (radix_digit radix c))) ds
                  then Some (safe_int (radix_value radix ds))
                  else Some (Exactly NaN)
           end
  | _ => None
  end.

(** [Number(v)] on a string or [undefined] ([StringToNumber]): white space
    is trimmed, the empty string is [0], a text that is not a numeric
    literal is [NaN]. *)
Definition Number_ (v : option jsstring) : approx number :=
  match v with
  | None => Exactly NaN
  | Some s =>
      let t := trim s in
      match t with
      | [] => Exactly (Int 0)
      | _ =>
          match non_decimal t with
          | Some n => n
          | None =>
              let (negative, u) := strip_sign t in
              if str_eqb u (str "Infinity") then Inexact
              else unsigned_decimal negative u
          end
      end
  end.

(** [n > k], [n - k] and [n || 0] on tracked numbers; a comparison with
    [NaN] is false, [NaN] and [0] are falsy. *)
Definition num_gt (n : number) (k : Z) : bool :=
  match n with
  | NaN => false
  | Int z => k <? z
  end.

Definition num_sub (n : number) (k : Z) : number :=
  match n with
  | NaN => NaN
  | Int z => Int (z - k)
  end.

Definition num_or_zero (n : number) : number :=
  match n with
  | NaN => Int 0
  | Int z => Int z
  end.

Definition digit_char (d : Z) : ascii := ascii_of_nat (48 + Z.to_nat d).

Fixpoint to_digits (fuel : nat) (n : Z) : jsstring :=
  match fuel with
  | O => []
  | S f =>
      if n <? 10 then [digit_char n]
      else to_digits f (n / 10) ++ [digit_char (n mod 10)]
  end.

(** Decimal digits of a natural number, most significant first. *)
Definition decimal (n : Z) : jsstring :=
  to_digits (S (Z.to_nat (Z.log2 n))) n.

(** [`${n}`]: [Number::toString] on a tracked number. *)
Definition num_toString (n : number) : jsstring :=
  match n with
  | NaN => str "NaN"
  | Int z => if z <? 0 then "-"%char :: decimal (- z) else decimal z
  end.

(** ** Node: requests, responses and the calls a handler makes *)

Module IncomingMessage.
Record t : Type := mk {
  url : jsstring;
  method : jsstring;
  headers : gmap jsstring jsstring
}.
End IncomingMessage.

(** What is written to a response: a Buffer or a string. *)
Inductive chunk : Type :=
| Buffer (bytes : list Byte.byte)
| Text (s : jsstring).

(** Bytes of a chunk on the wire; a string is sent as UTF-8, two bytes for
    a character above 127. *)
Definition chunk_length (c : chunk) : nat :=
  match c with
  | Buffer b => length b
  | Text s =>
      fold_right (fun a n => ((if (nat_of_ascii a <? 128)%nat then 1 else 2) + n)%nat)
                 0%nat s
  end.

(** The response as the listener builds it.  [body] is what has been
    written to it. *)
Module ServerResponse.
Record t : Type := mk {
  statusCode : Z;
  headers : list (jsstring * jsstring);
  body : list chunk;
  finished : bool
}.

(** A response object as the HTTP server hands it to the listener:
    [statusCode] defaults to 200, nothing is written yet. *)
Definition fresh : t :=
  {| statusCode := 200; headers := []; body := []; finished := false |}.

Definition body_length (r : t) : nat :=
  fold_right (fun c n => (chunk_length c + n)%nat) 0%nat (body r).
End ServerResponse.

(** The calls a listener makes on its environment, in order. *)
Inductive call : Type :=
| Emit (name : jsstring)
| WriteHead (status : number) (headers : list (jsstring * jsstring))
| Write (c : chunk)
| End_ (c : option chunk)
| ProxyWeb (target : jsstring).

Record world : Type := mkWorld {
  res : ServerResponse.t;
  calls : list call
}.

Definition start : world := {| res := ServerResponse.fresh; calls := [] |}.

(** The exceptions the modelled platform calls throw, under the codes of
    the current Node releases; the first and the last are [RangeError]s. *)
Inductive error : Type :=
| ERR_HTTP_INVALID_STATUS_CODE (status : number)
| ERR_INVALID_CHAR (header : jsstring)
| ERR_OUT_OF_RANGE (size : number).

(** A listener either returns, throws, or reaches a Number that is not
    tracked ([Beyond]). *)
Inductive outcome (A : Type) : Type :=
| Ok (a : A) (w : world)
| Throws (e : error) (w : world)
| Beyond.
Arguments Ok {A} a w.
Arguments Throws {A} e w.
Arguments Beyond {A}.

Definition M (A : Type) : Type := world -> outcome A.

#[global] Instance M_ret : MRet M := fun A a w => Ok a w.
#[global] Instance M_bind : MBind M := fun A B f m w =>
  match m w with
  | Ok a w' => f a w'
  | Throws e w' => Throws e w'
  | Beyond => Beyond
  end.

Definition throw {A} (e : error) : M A := fun w => Throws e w.

Definition record (c : call) : M unit :=
  fun w => Ok tt {| res := res w; calls := calls w ++ [c] |}.

Definition update (f : ServerResponse.t -> ServerResponse.t) : M unit :=
  fun w => Ok tt {| res := f (res w); calls := calls w |}.

(** A Number that has to be looked at. *)
Definition tracked (n : approx number) : M number :=
  match n with
  | Exactly v => mret v
  | Inexact => fun _ => Beyond
  end.

(** [server.emit(name, req, res)]; the fixtures of [index.js] have no
    listener on the events their handlers emit. *)
Definition emit (name : jsstring) : M unit := record (Emit name).

(** The characters a header value may carry: TAB, the printable ASCII
    characters and the octets from 0x80 on. *)
Definition valid_header_char (c : ascii) : bool :=
  let n := nat_of_ascii c in
  ((n =? 9) || ((32 <=? n) && (n <=? 126)) || (128 <=? n))%nat.

(** The name of the first header whose value Node refuses. *)
Definition invalid_header (hs : list (jsstring * jsstring)) : option jsstring :=
  fst <$> find (fun h => negb (forallb valid_header_char (snd h))) hs.

(** [res.writeHead(status, headers)].  Node throws
    [ERR_HTTP_INVALID_STATUS_CODE] unless [100 <= status <= 999], sets
    [statusCode], and throws [ERR_INVALID_CHAR] on a header value with a
    control character. *)
Definition writeHead (status : number) (hs : list (jsstring * jsstring)) : M unit :=
  record (WriteHead status hs) ;;
  match status with
  | Int z =>
      if (100 <=? z) && (z <=? 999) then
        update (fun r => {| ServerResponse.statusCode := z;
                            ServerResponse.headers := ServerResponse.headers r;
                            ServerResponse.body := ServerResponse.body r;
                            ServerResponse.finished := ServerResponse.finished r |}) ;;
        match invalid_header hs with
        | Some name => throw (ERR_INVALID_CHAR name)
        | None =>
            update (fun r => {| ServerResponse.statusCode := ServerResponse.statusCode r;
                                ServerResponse.headers := ServerResponse.headers r ++ hs;
                                ServerResponse.body := ServerResponse.body r;
                                ServerResponse.finished := ServerResponse.finished r |})
        end
      else throw (ERR_HTTP_INVALID_STATUS_CODE status)
  | NaN => throw (ERR_HTTP_INVALID_STATUS_CODE status)
  end.

Definition append_body (c : option chunk) (r : ServerResponse.t) : list chunk :=
  match c with
  | Some c => ServerResponse.body r ++ [c]
  | None => ServerResponse.body r
  end.

(** [res.write(chunk)]. *)
Definition write (c : chunk) : M unit :=
  record (Write c) ;;
  update (fun r => {| ServerResponse.statusCode := ServerResponse.statusCode r;
                      ServerResponse.headers := ServerResponse.headers r;
                      ServerResponse.body := append_body (Some c) r;
                      ServerResponse.finished := ServerResponse.finished r |}).

(** [res.end()] and [res.end(data)]. *)
Definition end_ (c : option chunk) : M unit :=
  record (End_ c) ;;
  update (fun r => {| ServerResponse.statusCode := ServerResponse.statusCode r;
                      ServerResponse.headers := ServerResponse.headers r;
                      ServerResponse.body := append_body c r;
                      ServerResponse.finished := true |}).

(** [proxy.web(req, res, { target })]: the request is handed to the proxy,
    which answers it from the target. *)
Definition proxy_web (target : jsstring) : M unit := record (ProxyWeb target).

(** [s.replace(re, '')] where [re] is a literal [?] followed by any number
    of [.]: the first [?] and what follows it on the line are removed; [.]
    stops at a line terminator. *)
Definition is_line_terminator (c : ascii) : bool :=
  let n := nat_of_ascii c in ((n =? 10) || (n =? 13))%nat.

Fixpoint skip_line (s : jsstring) : jsstring :=
  match s with
  | c :: s' => if is_line_terminator c then s else skip_line s'
  | [] => []
  end.

Fixpoint strip_query (s : jsstring) : jsstring :=
  match s with
  | c :: s' => if Ascii.eqb c "?" then skip_line s' else c :: strip_query s'
  | [] => []
  end.

(** The listener [createHTTPServer] passes to [http.createServer]: an event
    named by the path, query string removed.  It runs before the listeners
    the fixtures add. *)
Definition createHTTPServer_request (req : IncomingMessage.t) : M unit :=
  emit (strip_query (IncomingMessage.url req)).

Section Fixtures.

(** [buffer.constants.MAX_LENGTH], which depends on the Node release. *)
Variable kMaxLength : Z.

(** [Buffer.alloc(size)]: zero-filled; a size outside
    [0 .. kMaxLength] is a [RangeError].  Memory is not a limit here. *)
Definition Buffer_alloc (size : number) : M chunk :=
  match size with
  | Int z =>
      if (0 <=? z) && (z <=? kMaxLength)
      then mret (Buffer (repeat Byte.x00 (Z.to_nat z)))
      else throw (ERR_OUT_OF_RANGE size)
  | NaN => throw (ERR_OUT_OF_RANGE size)
  end.

(** The ['request'] listener of [createRedirectServer]. *)
Definition createRedirectServer_request (req : IncomingMessage.t) : M unit :=
  emit (str "hit") ;;
  (* /<urlPath>/<numberOfRedirects>/<responseCode> *)
  if negb (test_to_end re_redirect (IncomingMessage.url req)) then
    end_ None
  else
    let urlTokens := split slash (IncomingMessage.url req) in
    numberOfRedirects ← tracked (parseInt10 (index_from_end urlTokens 2)) ;
    responseCode ← tracked (parseInt10 (index_from_end urlTokens 1)) ;
    (* redirect until all hops are covered *)
    let redirectURL :=
      if num_gt numberOfRedirects 1 then
        join slash (slice_0_m2 urlTokens)
          ++ slash :: num_toString (num_sub numberOfRedirects 1)
          ++ slash :: num_toString responseCode
      else
        join slash (slice_0_m2 urlTokens) ++ [slash] in
    writeHead responseCode [(str "location", redirectURL)] ;;
    end_ None.

(** The ['request'] listener of [createBytesServer]. *)
Definition createBytesServer_request (req : IncomingMessage.t) : M unit :=
  let path := split slash (IncomingMessage.url req) in
  n ← tracked (Number_ (index_from_end path 1)) ;
  let bytes := num_or_zero n in
  writeHead (Int 200) [] ;;
  buf ← Buffer_alloc bytes ;
  write buf ;;
  end_ None.

End Fixtures.

(** ** The router of [index.js] *)

Module Server.
(** A server object.  Its ['listening'] listener sets [port] and
    [url = 'http://localhost:' + port] (['https://...'] for a server made
    by [createSSLServer]); before that both are [undefined]. *)
Record t : Type := mk {
  secure : bool;
  port : option Z
}.

Definition url (s : t) : option jsstring :=
  match port s with
  | Some p =>
      Some (str (if secure s then "https://localhost:" else "http://localhost:")
              ++ num_toString (Int p))
  | None => None
  end.
End Server.

(** The object [SERVERS] once the module has been loaded: the four entries
    of the literal and [ssl_renegotiation], added before any request can be
    served. *)
Record SERVERS_t : Type := mkSERVERS {
  raw : Server.t;
  bytes : Server.t;
  redirect : Server.t;
  graphql : Server.t;
  ssl_renegotiation : Server.t
}.

(** What a property read on [SERVERS] can give. *)
Inductive value : Type :=
| Undefined
| ServerObject (s : Server.t)
| Inherited (name : jsstring).

(** [SERVERS] is an object literal, so a read that misses its own
    properties continues in [Object.prototype]. *)
Definition Object_prototype : list jsstring :=
  map str [ "constructor"; "__defineGetter__"; "__defineSetter__";
            "hasOwnProperty"; "__lookupGetter__"; "__lookupSetter__";
            "isPrototypeOf"; "propertyIsEnumerable"; "toString"; "valueOf";
            "__proto__"; "toLocaleString" ]%string.

(** [ToPropertyKey]: [undefined] is the key ['undefined']. *)
Definition property_key (v : option jsstring) : jsstring :=
  match v with
  | Some s => s
  | None => str "undefined"
  end.

Definition truthy (v : value) : bool :=
  match v with
  | Undefined => false
  | _ => true
  end.

(** [v.url]: the members of [Object.prototype] have no such property. *)
Definition value_url (v : value) : option jsstring :=
  match v with
  | ServerObject s => Server.url s
  | _ => None
  end.

(** Truthiness of a string or [undefined]. *)
Definition truthy_string (v : option jsstring) : bool :=
  match v with
  | Some (_ :: _) => true
  | _ => false
  end.

(** The object literal [{ url, method, headers }] that [responseHandler]
    passes to [JSON.stringify]. *)
Module Echo.
Record t : Type := mk {
  url : jsstring;
  method : jsstring;
  headers : gmap jsstring jsstring
}.
End Echo.

Section Router.

Variable SERVERS : SERVERS_t.
Variable JSON_stringify : Echo.t -> jsstring.

(** [SERVERS[key]]. *)
Definition SERVERS_get (key : option jsstring) : value :=
  let k := property_key key in
  if str_eqb k (str "raw") then ServerObject (raw SERVERS)
  else if str_eqb k (str "bytes") then ServerObject (bytes SERVERS)
  else if str_eqb k (str "redirect") then ServerObject (redirect SERVERS)
  else if str_eqb k (str "graphql") then ServerObject (graphql SERVERS)
  else if str_eqb k (str "ssl_renegotiation") then ServerObject (ssl_renegotiation SERVERS)
  else if bool_decide (k ∈ Object_prototype) then Inherited k
  else Undefined.

Definition getTargetURL (req : IncomingMessage.t) : option jsstring :=
  let path := IncomingMessage.url req in
  let target := SERVERS_get (IncomingMessage.headers req !! str "target-server") in
  if truthy target then
    value_url target
  else if str_eqb path (str "/raw") || startsWith path (str "/raw/") then
    Server.url (raw SERVERS)
  else if str_eqb path (str "/graphql") then
    Server.url (graphql SERVERS)
  else if test_to_end re_redirect path then
    Server.url (redirect SERVERS)
  else if test_whole re_bytes path then
    Server.url (bytes SERVERS)
  else None.

(** The ['request'] listener installed by [responseHandler]. *)
Definition responseHandler_request (req : IncomingMessage.t) : M unit :=
  let target := getTargetURL req in
  if truthy_string target then
    proxy_web (default [] target)
  else
    writeHead (Int 200) [(str "content-type", str "application/json")] ;;
    end_ (Some (Text (JSON_stringify
      {| Echo.url := IncomingMessage.url req;
         Echo.method := IncomingMessage.method req;
         Echo.headers := IncomingMessage.headers req |}))).

End Router.

(** ** A client following redirects *)

(** The [location] header of a response, if any. *)
Definition location (r : ServerResponse.t) : option jsstring :=
  snd <$> find (fun h => str_eqb (fst h) (str "location")) (ServerResponse.headers r).

Definition request (u : jsstring) : IncomingMessage.t :=
  {| IncomingMessage.url := u; IncomingMessage.method := str "GET";
     IncomingMessage.headers := ∅ |}.

(** The responses a client collects when it asks the redirect fixture for
    [u] and then for every [location] it is sent to, at most [hops] times.
    The locations are absolute paths, so each one is the next request's
    URL. *)
Fixpoint follow (hops : nat) (u : jsstring) : list ServerResponse.t :=
  match hops with
  | O => []
  | S n =>
      match createRedirectServer_request (request u) start with
      | Ok _ w =>
          res w :: match location (res w) with
                   | Some u' => follow n u'
                   | None => []
                   end
      | _ => []
      end
  end.

(** ** Vocabulary of the statements *)

Definition all_digits (s : jsstring) : Prop := Forall (fun c => is_digit c = true) s.

(** [u] is [<prefix>/<h>/<code>] with [h] one or more digits and [code]
    exactly three digits. *)
Definition redirect_path (u prefix h code : jsstring) : Prop :=
  u = prefix ++ slash :: h ++ slash :: code
  /\ h <> [] /\ all_digits h
  /\ length code = 3%nat /\ all_digits code.

(** The [location] a redirect computed from hop count [n] and status [c]
    carries. *)
Definition redirect_location (prefix : jsstring) (n c : Z) : jsstring :=
  if 1 <? n then
    prefix ++ slash :: num_toString (Int (n - 1)) ++ slash :: num_toString (Int c)
  else prefix ++ [slash].

(** The response that ends a chain: [res.end()] on a fresh response. *)
Definition terminal : world :=
  {| res := {| ServerResponse.statusCode := 200;
               ServerResponse.headers := [];
               ServerResponse.body := [];
               ServerResponse.finished := true |};
     calls := [Emit (str "hit"); End_ None] |}.

(** The four fixtures a request can be routed to by name. *)
Definition known_fixture (S : SERVERS_t) (name : jsstring) : option Server.t :=
  if str_eqb name (str "raw") then Some (raw S)
  else if str_eqb name (str "graphql") then Some (graphql S)
  else if str_eqb name (str "bytes") then Some (bytes S)
  else if str_eqb name (str "redirect") then Some (redirect S)
  else None.

(** The classifier of the design, in its decision order: the object whose
    [url] the router reads, [Undefined] for the default.  [getTargetURL]
    is compared with it in [getTargetURL_classify]. *)
Definition classify (S : SERVERS_t) (req : IncomingMessage.t) : value :=
  let path := IncomingMessage.url req in
  let target := SERVERS_get S (IncomingMessage.headers req !! str "target-server") in
  if truthy target then target
  else if str_eqb path (str "/raw") || startsWith path (str "/raw/") then ServerObject (raw S)
  else if str_eqb path (str "/graphql") then ServerObject (graphql S)
  else if test_to_end re_redirect path then ServerObject (redirect S)
  else if test_whole re_bytes path then ServerObject (bytes S)
  else Undefined.

(** The answer of the router when it does not forward. *)
Definition echo (JSON_stringify : Echo.t -> jsstring) (req : IncomingMessage.t) : world :=
  let hs := [(str "content-type", str "application/json")] in
  let data := Text (JSON_stringify
                      {| Echo.url := IncomingMessage.url req;
                         Echo.method := IncomingMessage.method req;
                         Echo.headers := IncomingMessage.headers req |}) in
  {| res := {| ServerResponse.statusCode := 200;
               ServerResponse.headers := hs;
               ServerResponse.body := [data];
               ServerResponse.finished := true |};
     calls := [WriteHead (Int 200) hs; End_ (Some data)] |}.

(** The request does nothing but hand the request to the proxy. *)
Definition forwarded (target : jsstring) : world :=
  {| res := ServerResponse.fresh; calls := [ProxyWeb target] |}.

(** ** The raw echo server *)

(** [JSON.stringify] on a string ([QuoteJSONString]), for latin-1 text: the
    quote, the backslash and the control characters are escaped. *)
Definition double_quote : ascii := ascii_of_nat 34.
Definition backslash : ascii := ascii_of_nat 92.

Definition hex_digit (n : nat) : ascii :=
  nth n (str "0123456789abcdef") "0"%char.

Definition quote_char (c : ascii) : jsstring :=
  let n := nat_of_ascii c in
  if (n =? 8)%nat then [backslash; "b"%char]
  else if (n =? 9)%nat then [backslash; "t"%char]
  else if (n =? 10)%nat then [backslash; "n"%char]
  else if (n =? 12)%nat then [backslash; "f"%char]
  else if (n =? 13)%nat then [backslash; "r"%char]
  else if (n =? 34)%nat then [backslash; double_quote]
  else if (n =? 92)%nat then [backslash; backslash]
  else if (n <? 32)%nat then
    [backslash; "u"%char; "0"%char; "0"%char; hex_digit (n / 16); hex_digit (n mod 16)]
  else [c].

Definition JSON_stringify_string (s : jsstring) : jsstring :=
  double_quote :: flat_map quote_char s ++ [double_quote].

Definition CRLF : jsstring := [ascii_of_nat 13; ascii_of_nat 10].

(** What the connection listener of [createRawEchoServer] keeps on a socket:
    the property [data] it adds, the timers it has set and not yet seen
    fire, and what it has written. *)
Module Socket.
Record t : Type := mk {
  data : option jsstring;
  timers : nat;
  written : list jsstring;
  ended : bool
}.

Definition fresh : t :=
  {| data := None; timers := 0; written := []; ended := false |}.
End Socket.

(** What happens on a socket: a chunk arrives (given as [chunk.toString()]),
    or a timer set one second earlier fires. *)
Inductive socket_event : Type :=
| Data (chunk : jsstring)
| Timeout.

(** The callback handed to [setTimeout]. *)
Definition createRawEchoServer_respond (s : Socket.t) : Socket.t :=
  match Socket.data s with
  | Some d =>
      {| Socket.data := Socket.data s;
         Socket.timers := Socket.timers s;
         Socket.written :=
           Socket.written s
             ++ [ (* Status Line *)
                  str "HTTP/1.1 200 ok" ++ CRLF;
                  (* Response Headers *)
                  str "connection: close" ++ CRLF;
                  str "content-type: text/plain" ++ CRLF;
                  str "raw-request: " ++ JSON_stringify_string d ++ CRLF;
                  CRLF ]
             ++ (if negb (startsWith d (str "HEAD / HTTP/1.1")) then [d] else []);
         Socket.ended := true |}
  | None => s
  end.

(** The ['data'] listener. *)
Definition createRawEchoServer_data (chunk : jsstring) (s : Socket.t) : Socket.t :=
  match Socket.data s with
  | Some d =>
      {| Socket.data := Some (d ++ chunk);
         Socket.timers := Socket.timers s;
         Socket.written := Socket.written s;
         Socket.ended := Socket.ended s |}
  | None =>
      {| Socket.data := Some chunk;
         Socket.timers := S (Socket.timers s);
         Socket.written := Socket.written s;
         Socket.ended := Socket.ended s |}
  end.

Definition socket_step (s : Socket.t) (e : socket_event) : Socket.t :=
  match e with
  | Data chunk => createRawEchoServer_data chunk s
  | Timeout =>
      match Socket.timers s with
      | O => s
      | S n =>
          createRawEchoServer_respond
            {| Socket.data := Socket.data s;
               Socket.timers := n;
               Socket.written := Socket.written s;
               Socket.ended := Socket.ended s |}
      end
  end.

Definition socket_run (es : list socket_event) : Socket.t :=
  fold_left socket_step es Socket.fresh.

(** The response the echo server writes for the request text [d]. *)
Definition raw_echo (d : jsstring) : list jsstring :=
  [ str "HTTP/1.1 200 ok" ++ CRLF;
    str "connection: close" ++ CRLF;
    str "content-type: text/plain" ++ CRLF;
    str "raw-request: " ++ JSON_stringify_string d ++ CRLF;
    CRLF ]
  ++ (if startsWith d (str "HEAD / HTTP/1.1") then [] else [d]).

(** ** The proxy server *)

(** [Buffer.from(s)]: the UTF-8 octets of a latin-1 text. *)
Definition utf8 (s : jsstring) : list nat :=
  flat_map (fun c => let n := nat_of_ascii c in
                     if (n <? 128)%nat then [n]
                     else [192 + n / 64; 128 + n mod 64]%nat) s.

Definition base64_digit (n : nat) : ascii :=
  nth n (str "ABCDEFGHIJKLMNOPQRSTUVWXYZabcdefghijklmnopqrstuvwxyz0123456789+/") "A"%char.

(** [buf.toString('base64')]. *)
Fixpoint base64 (octets : list nat) : jsstring :=
  match octets with
  | a :: b :: c :: rest =>
      base64_digit (a / 4) :: base64_digit (a mod 4 * 16 + b / 16)
        :: base64_digit (b mod 16 * 4 + c / 64) :: base64_digit (c mod 64)
        :: base64 rest
  | [a; b] =>
      [base64_digit (a / 4); base64_digit (a mod 4 * 16 + b / 16);
       base64_digit (b mod 16 * 4); "="%char]
  | [a] => [base64_digit (a / 4); base64_digit (a mod 4 * 16); "="%char; "="%char]
  | [] => []
  end%nat.

(** [s.toLowerCase()] on latin-1 text. *)
Definition lower_char (c : ascii) : ascii :=
  let n := nat_of_ascii c in
  if ((65 <=? n) && (n <=? 90) || (192 <=? n) && (n <=? 222) && negb (n =? 215))%nat
  then ascii_of_nat (n + 32) else c.

Definition toLowerCase (s : jsstring) : jsstring := map lower_char s.

Module ProxyOptions.
Record t : Type := mk {
  auth : option (jsstring * jsstring);          (* username, password *)
  headers : option (gmap jsstring jsstring);
  agent : option jsstring;
  useIPv6 : bool
}.
End ProxyOptions.

(** What [url.parse] gives; [null] is [None]. *)
Module Url.
Record t : Type := mk {
  hostname : option jsstring;
  path : option jsstring;
  port : option jsstring
}.
End Url.

(** The options of [agent.request] and the module it is called on. *)
Module ClientRequest.
Record t : Type := mk {
  https : bool;
  host : option jsstring;
  path : option jsstring;
  port : option jsstring;
  method : jsstring;
  headers : gmap jsstring jsstring;
  family6 : bool
}.
End ClientRequest.

Section Proxy.

Variable url_parse : jsstring -> Url.t.
Variable options : ProxyOptions.t.

(** The [proxy-authorization] header computed once from [options.auth];
    [undefined] without it. *)
Definition proxyAuthHeader : option jsstring :=
  match ProxyOptions.auth options with
  | Some (username, password) =>
      Some (str "Basic " ++ base64 (utf8 (username ++ ":"%char :: password)))
  | None => None
  end.

(** The ['request'] listener of [createProxyServer].  It answers 407 itself
    and returns nothing, or returns the request it forwards, to which the
    client request and the response are piped. *)
Definition createProxyServer_request (req : IncomingMessage.t)
  : M (option ClientRequest.t) :=
  (* verify proxy authentication if auth is set *)
  if bool_decide (is_Some (ProxyOptions.auth options))
     && negb (bool_decide (IncomingMessage.headers req !! str "proxy-authorization"
                           = proxyAuthHeader)) then
    writeHead (Int 407) [] ;;
    end_ (Some (Text (str "Proxy Authentication Required"))) ;;
    mret None
  else
    (* avoid compressed response, merge headers set in options *)
    let headers :=
      default ∅ (ProxyOptions.headers options)
        ∪ delete (str "accept-encoding") (IncomingMessage.headers req) in
    let requestUrl := url_parse (IncomingMessage.url req) in
    mret (Some {| ClientRequest.https :=
                    bool_decide (ProxyOptions.agent options = Some (str "https"));
                  ClientRequest.host := Url.hostname requestUrl;
                  ClientRequest.path := Url.path requestUrl;
                  ClientRequest.port := Url.port requestUrl;
                  ClientRequest.method := toLowerCase (IncomingMessage.method req);
                  ClientRequest.headers := headers;
                  ClientRequest.family6 := ProxyOptions.useIPv6 options |}).

End Proxy.

(** ** The GraphQL server *)

(** The object [{ headers, body }] the GraphQL server echoes in its
    answers; [body] is [undefined] for a request without one. *)
Module GraphQLRequest.
Record t : Type := mk {
  headers : gmap jsstring jsstring;
  body : option jsstring
}.
End GraphQLRequest.

(** What reaches the listeners a request gets from [createGraphQLServer]. *)
Inductive body_event : Type :=
| Chunk (c : list Byte.byte)
| End_of_body.

Section GraphQL.

(** The values [JSON.parse] returns, what the promise of [GraphQL.graphql]
    is fulfilled and rejected with, and the [errors] of a result. *)
Variables json result reason errors : Type.

(** [buf.toString()]. *)
Variable toString : list Byte.byte -> jsstring.
(** [JSON.parse]; [None] when it throws. *)
Variable JSON_parse : jsstring -> option json.
(** The value is [null]. *)
Variable is_null : json -> bool.
(** [v[name]] on a value other than [null]; [None] is [undefined]. *)
Variable get : json -> jsstring -> option json.
(** [GraphQL.graphql] with the schema, root and context of the options, on
    [query], [variables] and [operationName]: how its promise settles. *)
Variable graphql : option json -> option json -> option json -> result + reason.
(** [data.errors]. *)
Variable result_errors : result -> option errors.

(** The third argument of [badRequest]. *)
Inductive graphql_error : Type :=
| Invalid_JSON_body
| Execution_errors (e : errors)
| Rejected (r : reason).

(** The objects the server passes to [JSON.stringify]. *)
Inductive graphql_reply : Type :=
| Bad_request (request : GraphQLRequest.t) (error : graphql_error)
| Success (request : GraphQLRequest.t) (data : result).

Variable JSON_stringify : graphql_reply -> jsstring.

Definition badRequest (request : GraphQLRequest.t) (error : graphql_error) : M unit :=
  writeHead (Int 400) [(str "content-type", str "application/json")] ;;
  end_ (Some (Text (JSON_stringify (Bad_request request error)))).

(** What a call of [responseHandler] comes to: the response is written, or
    a [TypeError] leaves the function before anything is. *)
Inductive handled : Type :=
| Responds (m : M unit)
| TypeError.

(** [responseHandler(req, res, body)] of [createGraphQLServer], with the
    callbacks of the promise run when it settles. *)
Definition graphql_responseHandler (req : IncomingMessage.t)
    (body : option (list Byte.byte)) : handled :=
  let stringBody := toString <$> body in
  let request := {| GraphQLRequest.headers := IncomingMessage.headers req;
                    GraphQLRequest.body := stringBody |} in
  match stringBody ≫= JSON_parse with
  | None => Responds (badRequest request Invalid_JSON_body)
  | Some jsonBody =>
      if is_null jsonBody then TypeError
      else
        Responds
          match graphql (get jsonBody (str "query"))
                        (get jsonBody (str "variables"))
                        (get jsonBody (str "operationName")) with
          | inl data =>
              match result_errors data with
              | Some e => badRequest request (Execution_errors e)
              | None =>
                  writeHead (Int 200) [(str "content-type", str "application/json")] ;;
                  end_ (Some (Text (JSON_stringify (Success request data))))
              end
          | inr err => badRequest request (Rejected err)
          end
  end.

(** The ['data'] listener: [this.chunks], created on the first chunk. *)
Definition graphql_data (chunk : list Byte.byte)
    (chunks : option (list (list Byte.byte))) : option (list (list Byte.byte)) :=
  Some (default [] chunks ++ [chunk]).

(** The ['end'] listener. *)
Definition graphql_end (req : IncomingMessage.t)
    (chunks : option (list (list Byte.byte))) : handled :=
  graphql_responseHandler req (@List.concat Byte.byte <$> chunks).

(** A request whose body arrives in the chunks [cs]. *)
Definition graphql_exchange (req : IncomingMessage.t) (cs : list (list Byte.byte)) : handled :=
  graphql_end req (fold_left (fun chunks c => graphql_data c chunks) cs None).

End GraphQL.

(** ** The options of the TLS servers *)

(** The values an option of [https.createServer] takes here. *)
Inductive option_value : Type :=
| OUndefined
| OBoolean (b : bool)
| OString (s : jsstring)
| OBuffer (contents : list Byte.byte).

(** [!v]. *)
Definition falsy (v : option_value) : bool :=
  match v with
  | OUndefined | OBoolean false | OString [] => true
  | _ => false
  end.

(** The options that name a file. *)
Definition optionsWithFilePath : list jsstring :=
  map str [ "key"; "cert"; "ca"; "pfx" ]%string.

Section SSLOptions.

(** [path.join], [__dirname], and [fs.readFileSync], which is [None] when
    it throws. *)
Variable path_join : jsstring -> jsstring -> jsstring.
Variable dirname : jsstring.
Variable readFileSync : option_value -> option (list Byte.byte).

Definition certDataPath : jsstring := path_join dirname (str "certificates").

(** The options [createSSLServer] starts from. *)
Definition ssl_defaults : gmap jsstring option_value :=
  {[ str "key" := OString (path_join certDataPath (str "server-key.pem"));
     str "cert" := OString (path_join certDataPath (str "server-crt.pem"));
     str "ca" := OString (path_join certDataPath (str "ca.pem")) ]}.

(** The body of the [forEach]: an option that is set is replaced by the
    contents of the file it names. *)
Definition load_file (name : jsstring) (options : gmap jsstring option_value)
  : option (gmap jsstring option_value) :=
  if falsy (default OUndefined (options !! name)) then Some options
  else (fun contents => <[ name := OBuffer contents ]> options)
         <$> readFileSync (default OUndefined (options !! name)).

(** The options [createSSLServer(opts)] passes to [https.createServer];
    [None] when reading a file throws. *)
Definition createSSLServer_options (opts : option (gmap jsstring option_value))
  : option (gmap jsstring option_value) :=
  fold_left (fun options name => options ≫= load_file name)
            optionsWithFilePath
            (Some (default ∅ opts ∪ ssl_defaults)).

(** The options [createSSLRenegotiationServer(opts)] hands on. *)
Definition renegotiation_defaults : gmap jsstring option_value :=
  {[ str "requestCert" := OBoolean false;
     str "rejectUnauthorized" := OBoolean false;
     (* renegotiation not supported in TLSv1.3 *)
     str "secureProtocol" := OString (str "TLSv1_2_method") ]}.

Definition createSSLRenegotiationServer_options
    (opts : option (gmap jsstring option_value))
  : option (gmap jsstring option_value) :=
  createSSLServer_options (Some (default ∅ opts ∪ renegotiation_defaults)).

End SSLOptions.

(** ** The hello service of the gRPC server *)

(** [LotsOfGreetings]: what the ['data'] listener makes of [response] on a
    message with the given [greeting]. *)
Definition LotsOfGreetings_data (response greeting : jsstring) : jsstring :=
  response ++ str "Hello " ++ greeting ++ str " - ".

(** The [reply] the ['end'] listener hands to the callback after the
    messages with the given greetings. *)
Definition LotsOfGreetings (greetings : list jsstring) : jsstring :=
  fold_left LotsOfGreetings_data greetings [].

(** A registry in which every fixture is listening.  The port of [raw] and
    of [ssl_renegotiation] is the one of [CONFIG]; the others are assigned
    by the system, 40001 to 40003 stand for them. *)
Definition listening : SERVERS_t :=
  {| raw := Server.mk false (Some 8082);
     bytes := Server.mk false (Some 40001);
     redirect := Server.mk false (Some 40002);
     graphql := Server.mk false (Some 40003);
     ssl_renegotiation := Server.mk true (Some 9091) |}.

(** The registry before any fixture is listening. *)
Definition idle : SERVERS_t :=
  {| raw := Server.mk false None;
     bytes := Server.mk false None;
     redirect := Server.mk false None;
     graphql := Server.mk false None;
     ssl_renegotiation := Server.mk true None |}.

(** A request that carries a [target-server] header. *)
Definition request_for (name u : jsstring) : IncomingMessage.t :=
  {| IncomingMessage.url := u; IncomingMessage.method := str "GET";
     IncomingMessage.headers := {[ str "target-server" := name ]} |}.

(** The listener [createSSLServer] passes to [https.createServer]: an event
    named by the URL as it is. *)
Definition createSSLServer_request (req : IncomingMessage.t) : M unit :=
  emit (IncomingMessage.url req).

(** A redirect response of the redirect fixture. *)
Definition redirected (status : Z) (target : jsstring) : ServerResponse.t :=
  {| ServerResponse.statusCode := status;
     ServerResponse.headers := [(str "location", target)];
     ServerResponse.body := [];
     ServerResponse.finished := true |}.

(** The responses of a chain of [n] hops under [prefix] with status [code]:
    [n] redirects, to [<prefix>/<n-1>/<code>] down to [<prefix>/], and the
    terminal response. *)
Fixpoint countdown (prefix code : jsstring) (n : nat) : list ServerResponse.t :=
  match n with
  | O => [res terminal]
  | S m =>
      redirected (digits_value code)
                 (redirect_location prefix (Z.of_nat (S m)) (digits_value code))
        :: countdown prefix code m
  end.

(** The answer of the proxy server to a request it does not let through. *)
Definition denied : world :=
  let data := Text (str "Proxy Authentication Required") in
  {| res := {| ServerResponse.statusCode := 407;
               ServerResponse.headers := [];
               ServerResponse.body := [data];
               ServerResponse.finished := true |};
     calls := [WriteHead (Int 407) []; End_ (Some data)] |}.

(** The five server objects of a registry. *)
Definition registered (S : SERVERS_t) : list Server.t :=
  [raw S; bytes S; redirect S; graphql S; ssl_renegotiation S].

(** The names of the own properties of [SERVERS]. *)
Definition own_keys : list jsstring :=
  map str [ "raw"; "bytes"; "redirect"; "graphql"; "ssl_renegotiation" ]%string.

(** The first path test of [getTargetURL]. *)
Definition raw_path (u : jsstring) : bool :=
  str_eqb u (str "/raw") || startsWith u (str "/raw/").

(** The body of a request as the GraphQL server reads it from the chunks
    it received: [undefined] without any, else their concatenation. *)
Definition received (cs : list (list Byte.byte)) : option (list Byte.byte) :=
  match cs with
  | [] => None
  | _ => Some (List.concat cs)
  end.

(** * Properties *)

Ltac case_if :=
  match goal with
  | |- context [if ?b then _ else _] => destruct b eqn:?
  end.

(** ** Strings *)

Lemma split_nonempty sep s : split sep s <> [].
Proof.
  destruct s as [|c s]; simpl; [discriminate|].
  destruct (Ascii.eqb c sep); [discriminate|].
  destruct (split sep s); discriminate.
Qed.

Lemma split_app_sep sep p s :
  split sep (p ++ sep :: s) = split sep p ++ split sep s.
Proof.
  induction p as [|c p IH]; simpl.
  - now rewrite Ascii.eqb_refl.
  - destruct (Ascii.eqb c sep); [now rewrite IH|].
    rewrite IH. pose proof (split_nonempty sep p) as Hne.
    destruct (split sep p); [contradiction|reflexivity].
Qed.

Lemma split_no_sep sep s :
  Forall (fun c => c <> sep) s -> split sep s = [s].
Proof.
  induction 1 as [|c s Hc _ IH]; simpl; [reflexivity|].
  destruct (Ascii.eqb_spec c sep); [contradiction|].
  now rewrite IH.
Qed.

Lemma join_split sep s : join sep (split sep s) = s.
Proof.
  induction s as [|c s IH]; simpl; [reflexivity|].
  destruct (Ascii.eqb c sep) eqn:E.
  - apply Ascii.eqb_eq in E. subst c.
    pose proof (split_nonempty sep s) as Hne.
    simpl. destruct (split sep s); [contradiction|].
    simpl in *. now rewrite IH.
  - pose proof (split_nonempty sep s) as Hne.
    destruct (split sep s) as [|t ts]; [contradiction|].
    simpl in *. destruct ts; simpl in *; now rewrite <- IH.
Qed.

Lemma slice_0_m2_app {A} (l : list A) x y : slice_0_m2 (l ++ [x; y]) = l.
Proof.
  unfold slice_0_m2. rewrite length_app. simpl.
  replace (length l + 2 - 2)%nat with (length l + 0)%nat by lia.
  rewrite firstn_app_2. simpl. apply app_nil_r.
Qed.

Lemma index_from_end_2 {A} (l : list A) x y :
  index_from_end (l ++ [x; y]) 2 = Some x.
Proof.
  unfold index_from_end. rewrite length_app. simpl.
  destruct (Nat.ltb_spec (length l + 2) 2); [lia|].
  replace (length l + 2 - 2)%nat with (length l) by lia.
  rewrite nth_error_app2 by lia. now rewrite Nat.sub_diag.
Qed.

Lemma index_from_end_1 {A} (l : list A) x y :
  index_from_end (l ++ [x; y]) 1 = Some y.
Proof.
  unfold index_from_end. rewrite length_app. simpl.
  destruct (Nat.ltb_spec (length l + 2) 1); [lia|].
  replace (length l + 2 - 1)%nat with (S (length l)) by lia.
  rewrite nth_error_app2 by lia.
  now replace (S (length l) - length l)%nat with 1%nat by lia.
Qed.

(** ** Digits *)

Lemma is_digit_range c :
  is_digit c = true <-> (48 <= nat_of_ascii c <= 57)%nat.
Proof.
  unfold is_digit. rewrite andb_true_iff, !Nat.leb_le. tauto.
Qed.

Lemma digit_not_slash c : is_digit c = true -> c <> slash.
Proof.
  intros H ->. apply is_digit_range in H.
  change (nat_of_ascii slash) with 47%nat in H. lia.
Qed.

Lemma digits_no_slash s : all_digits s -> Forall (fun c => c <> slash) s.
Proof. induction 1; constructor; auto using digit_not_slash. Qed.

Lemma digit_val_range c : is_digit c = true -> 0 <= digit_val c <= 9.
Proof. intros H. apply is_digit_range in H. unfold digit_val. lia. Qed.

Lemma digit_char_val c : is_digit c = true -> digit_char (digit_val c) = c.
Proof.
  intros H. apply is_digit_range in H. unfold digit_char, digit_val.
  replace (48 + Z.to_nat (Z.of_nat (nat_of_ascii c) - 48))%nat
    with (nat_of_ascii c) by lia.
  apply ascii_nat_embedding.
Qed.

Lemma digit_not_white c : is_digit c = true -> is_white c = false.
Proof.
  intros H. apply is_digit_range in H. unfold is_white.
  destruct (Nat.leb_spec 9 (nat_of_ascii c)), (Nat.leb_spec (nat_of_ascii c) 13),
    (Nat.eqb_spec (nat_of_ascii c) 32), (Nat.eqb_spec (nat_of_ascii c) 160);
    simpl; try reflexivity; lia.
Qed.

Lemma span_all p s : Forall (fun c => p c = true) s -> span p s = (s, []).
Proof.
  induction 1 as [|c s Hc _ IH]; simpl; [reflexivity|].
  now rewrite Hc, IH.
Qed.

Lemma digits_value_snoc ds d :
  digits_value (ds ++ [d]) = 10 * digits_value ds + digit_val d.
Proof. unfold digits_value. now rewrite fold_left_app. Qed.

Lemma digits_value_bounds ds :
  all_digits ds -> 0 <= digits_value ds < 10 ^ Z.of_nat (length ds).
Proof.
  induction ds as [|d ds IH] using rev_ind; intros H.
  - cbn. lia.
  - apply Forall_app in H as [Hds Hd]. inversion_clear Hd as [|? ? Hd' _].
    specialize (IH Hds). apply digit_val_range in Hd'.
    rewrite digits_value_snoc, length_app. simpl length.
    replace (Z.of_nat (length ds + 1)) with (Z.succ (Z.of_nat (length ds))) by lia.
    rewrite Z.pow_succ_r by lia. lia.
Qed.

Lemma digits_value_lower c ds :
  all_digits (c :: ds) -> c <> "0"%char ->
  10 ^ Z.of_nat (length ds) <= digits_value (c :: ds).
Proof.
  induction ds as [|d ds IH] using rev_ind; intros H Hc.
  - inversion_clear H as [|? ? Hd _]. apply is_digit_range in Hd.
    assert (nat_of_ascii c <> 48%nat).
    { intros E. apply Hc. rewrite <- (ascii_nat_embedding c), E. reflexivity. }
    cbn. unfold digit_val. lia.
  - rewrite app_comm_cons in H. apply Forall_app in H as [Hds Hd].
    inversion_clear Hd as [|? ? Hd' _]. apply digit_val_range in Hd'.
    specialize (IH Hds Hc).
    rewrite app_comm_cons, digits_value_snoc, length_app. simpl length.
    replace (Z.of_nat (length ds + 1)) with (Z.succ (Z.of_nat (length ds))) by lia.
    rewrite Z.pow_succ_r by lia. lia.
Qed.

Lemma to_digits_value c ds :
  all_digits (c :: ds) -> c <> "0"%char ->
  forall fuel, (length (c :: ds) <= fuel)%nat ->
  to_digits fuel (digits_value (c :: ds)) = c :: ds.
Proof.
  induction ds as [|d ds IH] using rev_ind; intros H Hc fuel Hfuel.
  - inversion_clear H as [|? ? Hd _].
    destruct fuel as [|f]; [simpl in Hfuel; lia|].
    pose proof (digit_val_range _ Hd) as Hr.
    assert (E : digits_value [c] = digit_val c) by (cbn; lia).
    rewrite E. simpl. destruct (Z.ltb_spec (digit_val c) 10); [|lia].
    now rewrite digit_char_val.
  - pose proof H as Hall.
    rewrite app_comm_cons in H. apply Forall_app in H as [Hds Hd].
    inversion_clear Hd as [|? ? Hd' _].
    pose proof (digit_val_range _ Hd') as Hr.
    pose proof (digits_value_lower _ _ Hds Hc) as Hlow.
    assert (0 < 10 ^ Z.of_nat (length ds)) by (apply Z.pow_pos_nonneg; lia).
    rewrite app_comm_cons, digits_value_snoc.
    destruct fuel as [|f]; [simpl in Hfuel; lia|].
    simpl to_digits.
    destruct (Z.ltb_spec (10 * digits_value (c :: ds) + digit_val d) 10); [lia|].
    replace ((10 * digits_value (c :: ds) + digit_val d) / 10)
      with (digits_value (c :: ds))
      by (apply Z.div_unique with (r := digit_val d); lia).
    replace ((10 * digits_value (c :: ds) + digit_val d) mod 10)
      with (digit_val d)
      by (apply Z.mod_unique with (q := digits_value (c :: ds)); lia).
    rewrite IH, digit_char_val; auto.
    simpl in Hfuel. rewrite length_app in Hfuel. simpl in *. lia.
Qed.

Lemma decimal_digits_value c ds :
  all_digits (c :: ds) -> c <> "0"%char ->
  decimal (digits_value (c :: ds)) = c :: ds.
Proof.
  intros H Hc. unfold decimal. apply to_digits_value; auto.
  pose proof (digits_value_lower _ _ H Hc) as Hlow.
  assert (Z.of_nat (length ds) <= Z.log2 (digits_value (c :: ds))).
  { rewrite <- (Z.log2_pow2 (Z.of_nat (length ds))) by lia.
    apply Z.log2_le_mono. etransitivity; [|exact Hlow].
    apply Z.pow_le_mono_l. lia. }
  simpl length. lia.
Qed.

Lemma num_toString_digits c ds :
  all_digits (c :: ds) -> c <> "0"%char ->
  num_toString (Int (digits_value (c :: ds))) = c :: ds.
Proof.
  intros H Hc. unfold num_toString.
  pose proof (digits_value_bounds _ H).
  destruct (Z.ltb_spec (digits_value (c :: ds)) 0); [lia|].
  now apply decimal_digits_value.
Qed.

(** [decimal] is the decimal notation: its digits have the value printed
    and, but for [0], no leading zero. *)
Lemma digit_val_char d : 0 <= d <= 9 -> digit_val (digit_char d) = d.
Proof.
  intros H. unfold digit_val, digit_char.
  rewrite nat_ascii_embedding by lia. lia.
Qed.

Lemma digit_char_digit d : 0 <= d <= 9 -> is_digit (digit_char d) = true.
Proof.
  intros H. apply is_digit_range. unfold digit_char.
  rewrite nat_ascii_embedding by lia. lia.
Qed.

Lemma to_digits_spec fuel : forall n,
  0 <= n < 2 ^ Z.of_nat fuel ->
  all_digits (to_digits fuel n)
  /\ digits_value (to_digits fuel n) = n
  /\ (0 < n -> hd "0"%char (to_digits fuel n) <> "0"%char).
Proof.
  induction fuel as [|f IH]; intros n Hn.
  - change (2 ^ Z.of_nat 0) with 1 in Hn. assert (n = 0) by lia. subst n.
    repeat split; [constructor|lia].
  - cbn [to_digits]. destruct (Z.ltb_spec n 10) as [Hlt|Hge].
    + split; [|split].
      * constructor; [apply digit_char_digit; lia|constructor].
      * unfold digits_value. cbn [fold_left]. rewrite digit_val_char by lia. lia.
      * intros Hpos E. cbn [hd] in E.
        apply (f_equal digit_val) in E. rewrite digit_val_char in E by lia.
        change (digit_val "0") with 0 in E. lia.
    + assert (Hq : 0 <= n / 10 < 2 ^ Z.of_nat f).
      { split; [apply Z.div_pos; lia|].
        apply Z.div_lt_upper_bound; [lia|].
        replace (Z.of_nat (S f)) with (Z.succ (Z.of_nat f)) in Hn by lia.
        rewrite Z.pow_succ_r in Hn by lia. lia. }
      destruct (IH _ Hq) as (Hd & Hv & Hh).
      pose proof (Z.mod_pos_bound n 10 ltac:(lia)) as Hm.
      assert (Hq1 : 0 < n / 10) by (apply Z.div_str_pos; lia).
      split; [|split].
      * apply Forall_app. split; [exact Hd|].
        constructor; [apply digit_char_digit; lia|constructor].
      * rewrite digits_value_snoc, Hv, digit_val_char by lia.
        pose proof (Z.div_mod n 10 ltac:(lia)). lia.
      * intros _. specialize (Hh Hq1).
        destruct (to_digits f (n / 10)) as [|c ds] eqn:E; [|exact Hh].
        cbn in Hv. lia.
Qed.

Lemma decimal_spec n :
  0 <= n ->
  all_digits (decimal n)
  /\ digits_value (decimal n) = n
  /\ (0 < n -> hd "0"%char (decimal n) <> "0"%char).
Proof.
  intros Hn. unfold decimal. apply to_digits_spec.
  split; [lia|].
  destruct (Z.eq_dec n 0) as [->|Hne]; [reflexivity|].
  rewrite Nat2Z.inj_succ, Z2Nat.id by apply Z.log2_nonneg.
  apply Z.log2_spec. lia.
Qed.

Lemma strip_sign_digit c s : is_digit c = true -> strip_sign (c :: s) = (false, c :: s).
Proof.
  destruct c as [[] [] [] [] [] [] [] []]; intros H; try discriminate H; reflexivity.
Qed.

(** [parseInt] of a run of digits is its value, as long as that value is a
    safe integer. *)
Lemma parseInt10_digits ds :
  all_digits ds -> ds <> [] ->
  parseInt10 (Some ds) = safe_int (digits_value ds).
Proof.
  intros H Hne. destruct ds as [|c ds]; [contradiction|].
  pose proof H as Hall. inversion_clear H as [|? ? Hc Hds].
  unfold parseInt10. simpl trim_start. rewrite (digit_not_white _ Hc).
  rewrite (strip_sign_digit _ _ Hc), (span_all is_digit (c :: ds) Hall).
  reflexivity.
Qed.

(** Numbers print as valid header text. *)
Lemma digit_char_valid d : 0 <= d <= 9 -> valid_header_char (digit_char d) = true.
Proof.
  intros H.
  assert (E : d = 0 \/ d = 1 \/ d = 2 \/ d = 3 \/ d = 4 \/ d = 5 \/ d = 6 \/ d = 7
              \/ d = 8 \/ d = 9) by lia.
  repeat (destruct E as [->|E]; [reflexivity|]). now subst d.
Qed.

Lemma to_digits_valid fuel : forall n,
  0 <= n -> forallb valid_header_char (to_digits fuel n) = true.
Proof.
  induction fuel as [|f IH]; intros n Hn; cbn [to_digits]; [reflexivity|].
  destruct (Z.ltb_spec n 10).
  - cbn [forallb]. rewrite digit_char_valid by lia. reflexivity.
  - rewrite forallb_app, IH by (apply Z.div_pos; lia). cbn [forallb].
    rewrite digit_char_valid; [reflexivity|].
    pose proof (Z.mod_pos_bound n 10). lia.
Qed.

Lemma num_toString_valid n : forallb valid_header_char (num_toString n) = true.
Proof.
  destruct n as [|z]; [reflexivity|]. unfold num_toString, decimal.
  destruct (Z.ltb_spec z 0); cbn [forallb]; [change (valid_header_char "-") with true|];
    apply to_digits_valid; lia.
Qed.

Lemma redirect_location_valid prefix n c :
  forallb valid_header_char prefix = true ->
  forallb valid_header_char (redirect_location prefix n c) = true.
Proof.
  intros Hp. unfold redirect_location. destruct (1 <? n).
  - rewrite forallb_app, Hp. cbn [forallb andb].
    rewrite forallb_app, num_toString_valid. cbn [forallb andb].
    rewrite num_toString_valid. reflexivity.
  - rewrite forallb_app, Hp. reflexivity.
Qed.

(** ** Regular expressions: the matcher decides the language *)

Lemma nullable_lang r : nullable r = true <-> lang r [].
Proof.
  split.
  - induction r; simpl; intros H; try discriminate.
    + constructor.
    + apply andb_true_iff in H as [H1 H2].
      change (@nil ascii) with (@nil ascii ++ []). constructor; auto.
    + apply orb_true_iff in H as [H|H]; [apply lang_alt_l | apply lang_alt_r]; auto.
    + constructor.
  - induction r; intros H; inversion H; subst; simpl; auto.
    + match goal with E : _ ++ _ = [] |- _ => apply app_eq_nil in E as [-> ->] end.
      apply andb_true_iff; auto.
    + apply orb_true_iff; auto.
    + apply orb_true_iff; auto.
Qed.

Lemma deriv_sound c r : forall s, lang (deriv c r) s -> lang r (c :: s).
Proof.
  induction r as [| |p|r1 IH1 r2 IH2|r1 IH1 r2 IH2|r IH]; simpl; intros s H.
  - inversion H.
  - inversion H.
  - destruct (p c) eqn:E; inversion H; subst. now constructor.
  - assert (Hcat : forall t, lang (Cat (deriv c r1) r2) t -> lang (Cat r1 r2) (c :: t)).
    { intros t Ht. inversion Ht; subst.
      change (c :: s1 ++ s2) with ((c :: s1) ++ s2). constructor; auto. }
    destruct (nullable r1) eqn:E; [|auto].
    inversion H; subst; [auto|].
    change (c :: s) with ([] ++ c :: s). constructor; auto.
    now apply nullable_lang.
  - inversion H; subst; [apply lang_alt_l | apply lang_alt_r]; auto.
  - inversion H; subst.
    change (c :: s1 ++ s2) with ((c :: s1) ++ s2). constructor; auto.
Qed.

Lemma deriv_complete r w :
  lang r w -> forall c s, w = c :: s -> lang (deriv c r) s.
Proof.
  induction 1 as [|p a Ha|r1 r2 s1 s2 H1 IH1 H2 IH2|r1 r2 t H IH|r1 r2 t H IH
                  |r|r s1 s2 H1 IH1 H2 IH2]; intros c s E; simpl.
  - discriminate.
  - injection E as -> <-. rewrite Ha. constructor.
  - destruct s1 as [|a s1]; simpl in E.
    + apply nullable_lang in H1. rewrite H1. apply lang_alt_r. auto.
    + injection E as -> <-.
      destruct (nullable r1); [apply lang_alt_l|]; constructor; auto.
  - apply lang_alt_l. auto.
  - apply lang_alt_r. auto.
  - discriminate.
  - destruct s1 as [|a s1]; simpl in E.
    + apply (IH2 c s E).
    + injection E as -> <-. constructor; auto.
Qed.

Lemma matches_lang s : forall r, matches r s = true <-> lang r s.
Proof.
  induction s as [|c s IH]; intros r; simpl.
  - apply nullable_lang.
  - rewrite IH. split; [apply deriv_sound|].
    intros H. now apply (deriv_complete r (c :: s)).
Qed.

Lemma lang_star_any s : lang (Star Any) s.
Proof.
  induction s as [|c s IH]; [constructor|].
  change (c :: s) with ([c] ++ s). constructor; auto. now constructor.
Qed.

Lemma test_to_end_iff r s :
  test_to_end r s = true <-> exists p t, s = p ++ t /\ lang r t.
Proof.
  unfold test_to_end. rewrite matches_lang. split.
  - intros H. inversion H; subst. eauto.
  - intros (p & t & -> & H). constructor; auto using lang_star_any.
Qed.

Lemma lang_Chr c s : lang (Chr c) s <-> s = [c].
Proof.
  split.
  - intros H. inversion H; subst.
    match goal with E : Ascii.eqb _ _ = true |- _ => apply Ascii.eqb_eq in E; now subst end.
  - intros ->. constructor. apply Ascii.eqb_refl.
Qed.

Lemma lang_Digit s : lang Digit s <-> exists d, s = [d] /\ is_digit d = true.
Proof.
  split.
  - intros H. inversion H; subst. eauto.
  - intros (d & -> & H). now constructor.
Qed.

Lemma lang_star_Digit s : lang (Star Digit) s <-> all_digits s.
Proof.
  split.
  - intros H. remember (Star Digit) as r eqn:E.
    induction H as [| | | | | |r s1 s2 H1 _ H2 IH]; try discriminate; injection E as ->.
    + constructor.
    + apply lang_Digit in H1 as (d & -> & Hd).
      unfold all_digits. simpl. constructor; auto. now apply IH.
  - induction 1 as [|c s Hc _ IH]; [constructor|].
    change (c :: s) with ([c] ++ s). constructor; auto. now constructor.
Qed.

Lemma lang_plus_Digit s : lang (Plus Digit) s <-> s <> [] /\ all_digits s.
Proof.
  split.
  - intros H. inversion H; subst.
    match goal with
    | H1 : lang Digit _, H2 : lang (Star Digit) _ |- _ =>
        apply lang_Digit in H1 as (d & -> & Hd); apply lang_star_Digit in H2
    end.
    split; [discriminate|constructor; auto].
  - intros [Hne H]. destruct s as [|c s]; [contradiction|].
    inversion_clear H. change (c :: s) with ([c] ++ s).
    constructor; [now constructor|now apply lang_star_Digit].
Qed.

Lemma lang_cat_iff r1 r2 s :
  lang (Cat r1 r2) s <-> exists s1 s2, s = s1 ++ s2 /\ lang r1 s1 /\ lang r2 s2.
Proof.
  split.
  - intros H. inversion H; subst. eauto.
  - intros (s1 & s2 & -> & H1 & H2). now constructor.
Qed.

Lemma lang_re_redirect t :
  lang re_redirect t <->
  exists h code, t = slash :: h ++ slash :: code
                 /\ h <> [] /\ all_digits h /\ length code = 3%nat /\ all_digits code.
Proof.
  unfold re_redirect. split.
  - intros H.
    apply lang_cat_iff in H as (a & t1 & -> & Ha & H). apply lang_Chr in Ha as ->.
    apply lang_cat_iff in H as (h & t2 & -> & Hh & H).
    apply lang_plus_Digit in Hh as [Hne Hh].
    apply lang_cat_iff in H as (b & t3 & -> & Hb & H). apply lang_Chr in Hb as ->.
    apply lang_cat_iff in H as (x & t4 & -> & Hx & H).
    apply lang_Digit in Hx as (d1 & -> & H1).
    apply lang_cat_iff in H as (y & z & -> & Hy & Hz).
    apply lang_Digit in Hy as (d2 & -> & H2). apply lang_Digit in Hz as (d3 & -> & H3).
    exists h, [d1; d2; d3]. repeat split; auto. repeat constructor; auto.
  - intros (h & code & -> & Hne & Hh & Hlen & Hcode).
    destruct code as [|d1 [|d2 [|d3 [|]]]]; try discriminate Hlen.
    inversion_clear Hcode as [|? ? H1 Hc]. inversion_clear Hc as [|? ? H2 Hc'].
    inversion_clear Hc' as [|? ? H3 _].
    apply lang_cat_iff. exists [slash], (h ++ slash :: [d1; d2; d3]).
    split; [reflexivity|]. split; [now apply lang_Chr|].
    apply lang_cat_iff. exists h, (slash :: [d1; d2; d3]).
    split; [reflexivity|]. split; [now apply lang_plus_Digit|].
    apply lang_cat_iff. exists [slash], [d1; d2; d3].
    split; [reflexivity|]. split; [now apply lang_Chr|].
    apply lang_cat_iff. exists [d1], [d2; d3].
    split; [reflexivity|]. split; [apply lang_Digit; eauto|].
    apply lang_cat_iff. exists [d2], [d3].
    split; [reflexivity|]. split; apply lang_Digit; eauto.
Qed.

(** The test of the redirect fixture holds exactly of the URLs of the form
    [<prefix>/<h>/<code>]. *)
Lemma redirect_test_iff u :
  test_to_end re_redirect u = true <-> exists prefix h code, redirect_path u prefix h code.
Proof.
  rewrite test_to_end_iff. unfold redirect_path. split.
  - intros (p & t & -> & H). apply lang_re_redirect in H as (h & code & -> & H).
    exists p, h, code. tauto.
  - intros (p & h & code & -> & H). exists p, (slash :: h ++ slash :: code).
    split; [reflexivity|]. apply lang_re_redirect. exists h, code. tauto.
Qed.

(** ** The redirect fixture, request by request *)

Lemma safe_int_exact z :
  0 <= z <= MAX_SAFE_INTEGER -> safe_int z = Exactly (Int z).
Proof.
  intros H. unfold safe_int. rewrite Z.abs_eq by lia.
  destruct (Z.leb_spec z MAX_SAFE_INTEGER); [reflexivity|lia].
Qed.

Lemma split_redirect_path prefix h code :
  all_digits h -> all_digits code ->
  split slash (prefix ++ slash :: h ++ slash :: code) = split slash prefix ++ [h; code].
Proof.
  intros Hh Hc.
  rewrite split_app_sep, split_app_sep.
  rewrite (split_no_sep slash h), (split_no_sep slash code); auto using digits_no_slash.
Qed.

(** What the listener does on a URL of the redirect form, as long as the
    hop count is a safe integer and the prefix can be sent in a header. *)
Lemma redirect_run req prefix h code :
  redirect_path (IncomingMessage.url req) prefix h code ->
  digits_value h <= MAX_SAFE_INTEGER ->
  forallb valid_header_char prefix = true ->
  let n := digits_value h in
  let c := digits_value code in
  let hs := [(str "location", redirect_location prefix n c)] in
  createRedirectServer_request req start =
    if (100 <=? c) && (c <=? 999) then
      Ok tt {| res := {| ServerResponse.statusCode := c;
                         ServerResponse.headers := hs;
                         ServerResponse.body := [];
                         ServerResponse.finished := true |};
               calls := [Emit (str "hit"); WriteHead (Int c) hs; End_ None] |}
    else
      Throws (ERR_HTTP_INVALID_STATUS_CODE (Int c))
             {| res := ServerResponse.fresh;
                calls := [Emit (str "hit"); WriteHead (Int c) hs] |}.
Proof.
  intros Hp Hsafe Hvalid n c hs.
  assert (Ht : test_to_end re_redirect (IncomingMessage.url req) = true)
    by (apply redirect_test_iff; eauto).
  destruct Hp as (Hu & Hne & Hh & Hlen & Hc).
  unfold createRedirectServer_request. rewrite Ht, Hu. simpl negb. cbv iota.
  rewrite split_redirect_path by assumption.
  rewrite index_from_end_2, index_from_end_1, slice_0_m2_app, join_split.
  rewrite !parseInt10_digits by (auto; intros ->; discriminate).
  pose proof (digits_value_bounds _ Hh) as Bh.
  pose proof (digits_value_bounds _ Hc) as Bc. rewrite Hlen in Bc.
  change (10 ^ Z.of_nat 3) with 1000 in Bc.
  rewrite !safe_int_exact by (unfold MAX_SAFE_INTEGER in *; lia).
  pose proof (redirect_location_valid prefix n c Hvalid) as Hv.
  unfold writeHead, tracked, emit, end_, record, update,
    mbind, M_bind, mret, M_ret, throw, start. cbv beta iota.
  change (if num_gt (Int (digits_value h)) 1
          then prefix ++ slash :: num_toString (num_sub (Int (digits_value h)) 1)
                 ++ slash :: num_toString (Int (digits_value code))
          else prefix ++ [slash])
    with (redirect_location prefix n c).
  subst hs. fold c. clearbody c. revert Hv.
  generalize (redirect_location prefix n c). intros loc Hv.
  destruct ((100 <=? c) && (c <=? 999)) eqn:E; [|reflexivity].
  unfold invalid_header. cbn [find snd]. rewrite Hv. reflexivity.
Qed.

(** What it does on any other URL. *)
Lemma redirect_no_match req :
  test_to_end re_redirect (IncomingMessage.url req) = false ->
  createRedirectServer_request req start = Ok tt terminal.
Proof.
  intros Ht. unfold createRedirectServer_request. rewrite Ht. reflexivity.
Qed.

(** A three-digit code that does not start with [0] is a status Node
    accepts, and prints as itself. *)
Lemma status_code_range code :
  length code = 3%nat -> all_digits code -> hd "0"%char code <> "0"%char ->
  100 <= digits_value code <= 999.
Proof.
  intros Hlen Hc H0. destruct code as [|c ds]; [discriminate|].
  pose proof (digits_value_bounds _ Hc) as B. rewrite Hlen in B.
  pose proof (digits_value_lower _ _ Hc H0) as L.
  simpl in Hlen. injection Hlen as Hlen. rewrite Hlen in L.
  change (10 ^ Z.of_nat 3) with 1000 in B. change (10 ^ Z.of_nat 2) with 100 in L. lia.
Qed.

Lemma status_code_toString code :
  code <> [] -> all_digits code -> hd "0"%char code <> "0"%char ->
  num_toString (Int (digits_value code)) = code.
Proof.
  intros Hne Hc H0. destruct code as [|c ds]; [contradiction|].
  now apply num_toString_digits.
Qed.

Lemma redirect_hops_token u :
  test_to_end re_redirect u = true ->
  exists h, index_from_end (split slash u) 2 = Some h /\ h <> [] /\ all_digits h.
Proof.
  intros Ht. apply redirect_test_iff in Ht as (prefix & h & code & Hp).
  destruct Hp as (-> & Hne & Hh & _ & Hc).
  exists h. rewrite split_redirect_path, index_from_end_2 by assumption. auto.
Qed.

Lemma redirect_ok_cases req w :
  createRedirectServer_request req start = Ok tt w ->
  location (res w) <> None ->
  test_to_end re_redirect (IncomingMessage.url req) = true.
Proof.
  intros Hrun Hloc.
  destruct (test_to_end re_redirect (IncomingMessage.url req)) eqn:Ht; [reflexivity|].
  rewrite (redirect_no_match _ Ht) in Hrun. injection Hrun as <-.
  now contradiction Hloc.
Qed.

Lemma location_single sc v b f :
  location (ServerResponse.mk sc [(str "location", v)] b f) = Some v.
Proof. reflexivity. Qed.

(** The same with a status Node accepts: the listener returns. *)
Lemma redirect_run_ok req prefix h code :
  redirect_path (IncomingMessage.url req) prefix h code ->
  hd "0"%char code <> "0"%char ->
  digits_value h <= MAX_SAFE_INTEGER ->
  forallb valid_header_char prefix = true ->
  let hs := [(str "location",
              redirect_location prefix (digits_value h) (digits_value code))] in
  createRedirectServer_request req start =
    Ok tt {| res := {| ServerResponse.statusCode := digits_value code;
                       ServerResponse.headers := hs;
                       ServerResponse.body := [];
                       ServerResponse.finished := true |};
             calls := [Emit (str "hit"); WriteHead (Int (digits_value code)) hs;
                       End_ None] |}.
Proof.
  intros Hp H0 Hsafe Hvalid.
  pose proof (redirect_run _ _ _ _ Hp Hsafe Hvalid) as Hrun.
  destruct Hp as (_ & _ & _ & Hlen & Hc).
  pose proof (status_code_range _ Hlen Hc H0) as Hr.
  cbv zeta in Hrun |- *.
  destruct (Z.leb_spec 100 (digits_value code)); [|lia].
  destruct (Z.leb_spec (digits_value code) 999); [|lia].
  exact Hrun.
Qed.

(** ** The redirect fixture: responses *)


(** C1, amended.  For every request to the redirect fixture whose URL is
    [<prefix>/<h>/<code>], with [h] one or more digits of value at most
    [MAX_SAFE_INTEGER], [code] three digits of which the first is not [0],
    and a prefix free of the control characters a header value cannot
    carry, the response has status [code] and its [location] header is
    [<prefix>/<h-1>/<code>] ([h-1] in decimal) when [h > 1], and
    [<prefix>/] when [h <= 1]. *)
Theorem redirect_response req prefix h code :
  redirect_path (IncomingMessage.url req) prefix h code ->
  hd "0"%char code <> "0"%char ->
  digits_value h <= MAX_SAFE_INTEGER ->
  forallb valid_header_char prefix = true ->
  exists w,
    createRedirectServer_request req start = Ok tt w
    /\ ServerResponse.statusCode (res w) = digits_value code
    /\ location (res w) =
         Some (if 1 <? digits_value h
               then prefix ++ slash :: decimal (digits_value h - 1) ++ slash :: code
               else prefix ++ [slash]).
Proof.
  intros Hp H0 Hsafe Hvalid.
  pose proof (redirect_run_ok _ _ _ _ Hp H0 Hsafe Hvalid) as Hrun. cbv zeta in Hrun.
  destruct Hp as (_ & _ & _ & Hlen & Hc).
  assert (Hcode : code <> []) by (intros ->; discriminate).
  eexists. split; [exact Hrun|]. split; [reflexivity|].
  simpl res. rewrite location_single. unfold redirect_location.
  f_equal. destruct (Z.ltb_spec 1 (digits_value h)); [|reflexivity].
  rewrite (status_code_toString code) by assumption.
  unfold num_toString. destruct (Z.ltb_spec (digits_value h - 1) 0); [lia|reflexivity].
Qed.

Lemma redirect_response_witness :
  exists w,
    createRedirectServer_request (request (str "/a/b/5/301")) start = Ok tt w
    /\ ServerResponse.statusCode (res w) = 301
    /\ location (res w) = Some (str "/a/b/4/301").
Proof.
  apply (redirect_response (request (str "/a/b/5/301")) (str "/a/b") (str "5") (str "301")).
  - repeat split; try discriminate; repeat constructor.
  - discriminate.
  - vm_compute. discriminate.
  - reflexivity.
Defined.

(** C1 as stated fails on a code that starts with [0]: [parseInt] reads
    [007] as [7], the location is rebuilt from that number, and Node rejects
    the status, so no response with status [7] and location [/a/b/4/007] is
    sent. *)
Lemma redirect_response_leading_zero_code :
  createRedirectServer_request (request (str "/a/b/5/007")) start =
    Throws (ERR_HTTP_INVALID_STATUS_CODE (Int 7))
           {| res := ServerResponse.fresh;
              calls := [Emit (str "hit");
                        WriteHead (Int 7) [(str "location", str "/a/b/4/7")]] |}
  /\ ~ (forall req prefix h code,
          redirect_path (IncomingMessage.url req) prefix h code ->
          exists w,
            createRedirectServer_request req start = Ok tt w
            /\ ServerResponse.statusCode (res w) = digits_value code
            /\ location (res w) =
                 Some (if 1 <? digits_value h
                       then prefix ++ slash :: decimal (digits_value h - 1) ++ slash :: code
                       else prefix ++ [slash])).
Proof.
  split; [reflexivity|].
  intros H.
  destruct (H (request (str "/a/b/5/007")) (str "/a/b") (str "5") (str "007"))
    as (w & Hrun & _).
  - repeat split; try discriminate; repeat constructor.
  - discriminate Hrun.
Qed.

(** C4.  For every request to the redirect fixture whose URL is not of the
    form [<prefix>/<h>/<code>] ([h] one or more digits, [code] exactly three
    digits, at the end of the URL), the response has status 200 and an empty
    body, and no 4xx status. *)
Theorem redirect_terminal_response req :
  ~ (exists prefix h code, redirect_path (IncomingMessage.url req) prefix h code) ->
  exists w,
    createRedirectServer_request req start = Ok tt w
    /\ ServerResponse.statusCode (res w) = 200
    /\ ServerResponse.body (res w) = []
    /\ ServerResponse.finished (res w) = true
    /\ location (res w) = None
    /\ ~ (400 <= ServerResponse.statusCode (res w) <= 499).
Proof.
  intros Hno.
  assert (Ht : test_to_end re_redirect (IncomingMessage.url req) = false).
  { destruct (test_to_end re_redirect (IncomingMessage.url req)) eqn:E; [|reflexivity].
    apply redirect_test_iff in E. contradiction. }
  exists terminal. split; [now apply redirect_no_match|].
  repeat split; simpl; lia.
Qed.

Lemma redirect_terminal_response_witness :
  exists w,
    createRedirectServer_request (request (str "/a/b/301")) start = Ok tt w
    /\ ServerResponse.statusCode (res w) = 200
    /\ ServerResponse.body (res w) = []
    /\ ServerResponse.finished (res w) = true
    /\ location (res w) = None
    /\ ~ (400 <= ServerResponse.statusCode (res w) <= 499).
Proof.
  apply (redirect_terminal_response (request (str "/a/b/301"))).
  intros H. apply redirect_test_iff in H. vm_compute in H. discriminate H.
Defined.

(** C5.  Asked for [/a/b/5/301], the redirect fixture answers 301 with
    location [/a/b/4/301]; a client that follows each location gets exactly
    five redirect responses, the last one to [/a/b/], and the request for
    [/a/b/] is answered 200 with an empty body, which ends the chain. *)
Theorem redirect_countdown :
  let redirected l :=
    {| ServerResponse.statusCode := 301;
       ServerResponse.headers := [(str "location", str l)];
       ServerResponse.body := [];
       ServerResponse.finished := true |} in
  follow 100 (str "/a/b/5/301") =
    [ redirected "/a/b/4/301"; redirected "/a/b/3/301"; redirected "/a/b/2/301";
      redirected "/a/b/1/301"; redirected "/a/b/"; res terminal ]%string
  /\ createRedirectServer_request (request (str "/a/b/")) start = Ok tt terminal
  /\ ServerResponse.statusCode (res terminal) = 200
  /\ ServerResponse.body (res terminal) = [].
Proof.
  cbv zeta. split; [vm_compute; reflexivity|].
  split; [vm_compute; reflexivity|]. split; reflexivity.
Qed.

(** C6 as stated fails when the hops position holds [0]: the URL is still
    of the redirect form and the answer is a redirect to [<prefix>/]. *)
Lemma redirect_zero_hops :
  createRedirectServer_request (request (str "/a/b/0/301")) start =
    Ok tt {| res := {| ServerResponse.statusCode := 301;
                       ServerResponse.headers := [(str "location", str "/a/b/")];
                       ServerResponse.body := [];
                       ServerResponse.finished := true |};
             calls := [Emit (str "hit");
                       WriteHead (Int 301) [(str "location", str "/a/b/")];
                       End_ None] |}
  /\ ~ (forall req v,
          index_from_end (split slash (IncomingMessage.url req)) 2 = Some v ->
          ~ (v <> [] /\ all_digits v /\ 1 <= digits_value v) ->
          exists w, createRedirectServer_request req start = Ok tt w
                    /\ location (res w) = None).
Proof.
  split; [reflexivity|].
  intros H.
  destruct (H (request (str "/a/b/0/301")) (str "0")) as (w & Hrun & Hloc).
  - reflexivity.
  - intros (_ & _ & Hge). vm_compute in Hge. now apply Hge.
  - vm_compute in Hrun. injection Hrun as <-. discriminate Hloc.
Qed.

(** C6, amended.  A request is answered as a redirect (a response with a
    [location] header) only if its URL ends with [/<h>/<code>], [h] one or
    more digits and [code] exactly three digits.  A request in whose URL
    the hops position does not hold one or more digits is terminal.  A
    request in whose URL it holds the value 0 (with a [code] that does not
    start with [0] and a prefix free of control characters) is still a
    redirect: status [code], location [<prefix>/]. *)
Theorem redirect_recognition req :
  (forall w, createRedirectServer_request req start = Ok tt w ->
             location (res w) <> None ->
             exists prefix h code, redirect_path (IncomingMessage.url req) prefix h code)
  /\ (~ (exists h, index_from_end (split slash (IncomingMessage.url req)) 2 = Some h
                   /\ h <> [] /\ all_digits h) ->
      createRedirectServer_request req start = Ok tt terminal)
  /\ (forall prefix h code,
        redirect_path (IncomingMessage.url req) prefix h code ->
        digits_value h = 0 ->
        hd "0"%char code <> "0"%char ->
        forallb valid_header_char prefix = true ->
        exists w, createRedirectServer_request req start = Ok tt w
                  /\ ServerResponse.statusCode (res w) = digits_value code
                  /\ location (res w) = Some (prefix ++ [slash])).
Proof.
  split; [|split].
  - intros w Hrun Hloc. apply redirect_test_iff. eapply redirect_ok_cases; eauto.
  - intros Hno. apply redirect_no_match.
    destruct (test_to_end re_redirect (IncomingMessage.url req)) eqn:Ht; [|reflexivity].
    apply redirect_hops_token in Ht. contradiction.
  - intros prefix h code Hp Hz H0 Hvalid.
    assert (Hsafe : digits_value h <= MAX_SAFE_INTEGER)
      by (rewrite Hz; unfold MAX_SAFE_INTEGER; lia).
    pose proof (redirect_run_ok _ _ _ _ Hp H0 Hsafe Hvalid) as Hrun.
    cbv zeta in Hrun. rewrite Hz in Hrun.
    eexists. split; [exact Hrun|]. split; [reflexivity|].
    simpl res. now rewrite location_single.
Qed.

Lemma redirect_recognition_witness :
  createRedirectServer_request (request (str "/a/b/x/301")) start = Ok tt terminal
  /\ exists w, createRedirectServer_request (request (str "/a/b/0/301")) start = Ok tt w
               /\ ServerResponse.statusCode (res w) = 301
               /\ location (res w) = Some (str "/a/b/").
Proof.
  split.
  - apply (proj1 (proj2 (redirect_recognition (request (str "/a/b/x/301"))))).
    intros (h & E & _ & Hd). vm_compute in E. injection E as <-.
    inversion_clear Hd as [|? ? Hx _]. discriminate Hx.
  - apply (proj2 (proj2 (redirect_recognition (request (str "/a/b/0/301"))))
             (str "/a/b") (str "0") (str "301")).
    + repeat split; try discriminate; repeat constructor.
    + reflexivity.
    + discriminate.
    + reflexivity.
Defined.

(** ** The router *)

(** [getTargetURL] reads the [url] of what the classifier selects. *)
Lemma getTargetURL_classify S req :
  getTargetURL S req = value_url (classify S req).
Proof. unfold getTargetURL, classify. repeat case_if; reflexivity. Qed.

Lemma server_url_truthy s u :
  Server.url s = Some u -> truthy_string (Some u) = true.
Proof.
  unfold Server.url. destruct (Server.port s); [|discriminate].
  intros [= <-]. destruct (Server.secure s); reflexivity.
Qed.

Lemma getTargetURL_truthy S req u :
  getTargetURL S req = Some u -> truthy_string (Some u) = true.
Proof.
  rewrite getTargetURL_classify. destruct (classify S req); simpl; try discriminate.
  apply server_url_truthy.
Qed.

Lemma responseHandler_forwards S J req u :
  getTargetURL S req = Some u ->
  responseHandler_request S J req start = Ok tt (forwarded u).
Proof.
  intros H. unfold responseHandler_request.
  pose proof (getTargetURL_truthy _ _ _ H) as Ht.
  rewrite H, Ht. reflexivity.
Qed.

Lemma responseHandler_echoes S J req :
  getTargetURL S req = None ->
  responseHandler_request S J req start = Ok tt (echo J req).
Proof.
  intros H. unfold responseHandler_request. rewrite H. reflexivity.
Qed.

(** The router's listener always returns: it forwards or it echoes. *)
Lemma responseHandler_returns S J req :
  responseHandler_request S J req start = Ok tt (echo J req)
  \/ exists u, getTargetURL S req = Some u
               /\ responseHandler_request S J req start = Ok tt (forwarded u).
Proof.
  destruct (getTargetURL S req) as [u|] eqn:E.
  - right. exists u. split; [reflexivity|]. now apply responseHandler_forwards.
  - left. now apply responseHandler_echoes.
Qed.

Lemma str_eqb_eq a b : str_eqb a b = true <-> a = b.
Proof. unfold str_eqb. apply bool_decide_eq_true. Qed.

Lemma SERVERS_get_known S name s :
  known_fixture S name = Some s -> SERVERS_get S (Some name) = ServerObject s.
Proof.
  unfold known_fixture. intros H.
  repeat match type of H with
         | (if str_eqb name ?lit then _ else _) = _ =>
             destruct (str_eqb name lit) eqn:E;
             [apply str_eqb_eq in E; subst name; injection H as <-; reflexivity|clear E]
         end.
  discriminate.
Qed.

(** C2.  For every request whose [target-server] header names one of the
    fixtures raw, graphql, bytes and redirect, the classification is that
    fixture whatever the URL is: [getTargetURL] returns its [url], and once
    the fixture is listening the request is handed to the proxy with that
    target. *)
Theorem target_server_override S J req name s :
  IncomingMessage.headers req !! str "target-server" = Some name ->
  known_fixture S name = Some s ->
  classify S req = ServerObject s
  /\ getTargetURL S req = Server.url s
  /\ (forall u, Server.url s = Some u ->
                responseHandler_request S J req start = Ok tt (forwarded u)).
Proof.
  intros Hh Hk.
  assert (Hc : classify S req = ServerObject s).
  { unfold classify. rewrite Hh, (SERVERS_get_known _ _ _ Hk). reflexivity. }
  assert (Hg : getTargetURL S req = Server.url s)
    by (rewrite getTargetURL_classify, Hc; reflexivity).
  repeat split; auto.
  intros u Hu. apply responseHandler_forwards. congruence.
Qed.

Lemma target_server_override_witness :
  classify listening (request_for (str "graphql") (str "/raw/5/301")) =
    ServerObject (graphql listening)
  /\ getTargetURL listening (request_for (str "graphql") (str "/raw/5/301")) =
       Some (str "http://localhost:40003")
  /\ (forall u, Some (str "http://localhost:40003") = Some u ->
                responseHandler_request listening (fun _ => [])
                  (request_for (str "graphql") (str "/raw/5/301")) start =
                Ok tt (forwarded u)).
Proof.
  apply (target_server_override listening (fun _ => [])
           (request_for (str "graphql") (str "/raw/5/301")) (str "graphql")
           (graphql listening)).
  - vm_compute. reflexivity.
  - reflexivity.
Defined.

(** C7 fails on the code for a header value that names a property
    [SERVERS] inherits from [Object.prototype]: the read is truthy, its
    [url] is [undefined], and the path is never looked at.  With
    [target-server: toString] a request for [/raw] gets the JSON echo; with
    no such header it is forwarded to the raw fixture. *)
Theorem target_server_inherited_name J :
  let req := request_for (str "toString") (str "/raw") in
  SERVERS_get listening (IncomingMessage.headers req !! str "target-server") =
    Inherited (str "toString")
  /\ getTargetURL listening req = None
  /\ responseHandler_request listening J req start = Ok tt (echo J req)
  /\ responseHandler_request listening J (request (str "/raw")) start =
       Ok tt (forwarded (str "http://localhost:8082")).
Proof.
  cbv zeta.
  assert (Hh : IncomingMessage.headers (request_for (str "toString") (str "/raw"))
               !! str "target-server" = Some (str "toString"))
    by apply lookup_singleton_eq.
  assert (Hg : getTargetURL listening (request_for (str "toString") (str "/raw")) = None).
  { unfold getTargetURL. rewrite Hh. reflexivity. }
  split; [rewrite Hh; reflexivity|]. split; [exact Hg|].
  split; [now apply responseHandler_echoes|].
  apply responseHandler_forwards. reflexivity.
Qed.

(** A header value that is neither a property of [SERVERS] nor one of
    [Object.prototype] is ignored: the result is that of the same request
    without the header. *)
Lemma target_server_unregistered S req name :
  IncomingMessage.headers req !! str "target-server" = Some name ->
  SERVERS_get S (Some name) = Undefined ->
  getTargetURL S req =
    getTargetURL S {| IncomingMessage.url := IncomingMessage.url req;
                      IncomingMessage.method := IncomingMessage.method req;
                      IncomingMessage.headers :=
                        delete (str "target-server") (IncomingMessage.headers req) |}.
Proof.
  intros Hh Hu. unfold getTargetURL. rewrite Hh, Hu.
  cbn [IncomingMessage.headers IncomingMessage.url].
  rewrite lookup_delete_eq. reflexivity.
Qed.

(** C8.  For every request classified as default, and for every request
    whose classified fixture has no [url] yet, the router answers with
    status 200, content type [application/json] and the JSON text of
    [{ url, method, headers }] of the request, and does not call the
    proxy; the listener returns normally. *)
Theorem router_echo S J req :
  classify S req = Undefined
  \/ (exists s, classify S req = ServerObject s /\ Server.url s = None) ->
  exists w,
    responseHandler_request S J req start = Ok tt w
    /\ ServerResponse.statusCode (res w) = 200
    /\ ServerResponse.headers (res w) = [(str "content-type", str "application/json")]
    /\ ServerResponse.body (res w) =
         [Text (J {| Echo.url := IncomingMessage.url req;
                     Echo.method := IncomingMessage.method req;
                     Echo.headers := IncomingMessage.headers req |})]
    /\ ServerResponse.finished (res w) = true
    /\ forall target, ~ In (ProxyWeb target) (calls w).
Proof.
  intros H.
  assert (Hg : getTargetURL S req = None).
  { rewrite getTargetURL_classify. destruct H as [->|(s & -> & Hs)]; auto. }
  exists (echo J req). split; [now apply responseHandler_echoes|].
  repeat split. intros target [E|[E|[]]]; discriminate E.
Qed.

Lemma router_echo_witness :
  (exists w,
     responseHandler_request listening (fun _ => str "{}") (request (str "/")) start = Ok tt w
     /\ ServerResponse.statusCode (res w) = 200
     /\ ServerResponse.headers (res w) = [(str "content-type", str "application/json")]
     /\ ServerResponse.body (res w) = [Text (str "{}")]
     /\ ServerResponse.finished (res w) = true
     /\ forall target, ~ In (ProxyWeb target) (calls w))
  /\ (exists w,
        responseHandler_request idle (fun _ => str "{}") (request (str "/graphql")) start =
          Ok tt w
        /\ ServerResponse.statusCode (res w) = 200
        /\ ServerResponse.headers (res w) = [(str "content-type", str "application/json")]
        /\ ServerResponse.body (res w) = [Text (str "{}")]
        /\ ServerResponse.finished (res w) = true
        /\ forall target, ~ In (ProxyWeb target) (calls w)).
Proof.
  split.
  - apply (router_echo listening (fun _ => str "{}") (request (str "/"))).
    left. vm_compute. reflexivity.
  - apply (router_echo idle (fun _ => str "{}") (request (str "/graphql"))).
    right. exists (graphql idle). split; vm_compute; reflexivity.
Defined.

(** ** Classification and the query string *)

Lemma app_sep_suffix (sep : ascii) a : forall x y b,
  x ++ sep :: y = a ++ b -> Forall (fun c => c <> sep) b -> exists y', y = y' ++ b.
Proof.
  induction a as [|c a IH]; intros x y b E Hb.
  - simpl in E. subst b. apply Forall_app in Hb as [_ Hb].
    inversion_clear Hb as [|? ? Hs _]. contradiction.
  - destruct x as [|c' x]; simpl in E; injection E as -> E.
    + eauto.
    + eapply IH; eauto.
Qed.

Lemma question_mark_not_digit : is_digit "?"%char = false.
Proof. reflexivity. Qed.

Lemma redirect_test_query base q :
  Forall (fun c => c <> slash) q ->
  test_to_end re_redirect (base ++ "?"%char :: q) = false.
Proof.
  intros Hq. destruct (test_to_end re_redirect _) eqn:Ht; [|reflexivity].
  apply redirect_test_iff in Ht as (p & h & code & E & _ & _ & _ & Hc).
  change (p ++ slash :: h ++ slash :: code) with (p ++ (slash :: h) ++ slash :: code) in E.
  rewrite app_assoc in E. symmetry in E.
  apply app_sep_suffix in E as (y & ->).
  - apply Forall_app in Hc as [_ Hc]. inversion_clear Hc as [|? ? Hx _].
    rewrite question_mark_not_digit in Hx. discriminate.
  - constructor; [discriminate|assumption].
Qed.

Lemma lang_Lit s t : lang (Lit s) t <-> t = s.
Proof.
  revert t. induction s as [|c s IH]; intros t; simpl.
  - split; [intros H; now inversion H|intros ->; constructor].
  - rewrite lang_cat_iff. split.
    + intros (a & b & -> & Ha & Hb). apply lang_Chr in Ha as ->.
      apply IH in Hb as ->. reflexivity.
    + intros ->. exists [c], s. split; [reflexivity|].
      split; [now apply lang_Chr|now apply IH].
Qed.

(** The test of the bytes route holds exactly of [/bytes/<n>], [n] one or
    more digits. *)
Lemma bytes_test_iff u :
  test_whole re_bytes u = true <->
  exists ds, u = str "/bytes/" ++ ds /\ ds <> [] /\ all_digits ds.
Proof.
  unfold test_whole, re_bytes. rewrite matches_lang, lang_cat_iff. split.
  - intros (a & ds & -> & Ha & Hds). apply lang_Lit in Ha as ->.
    apply lang_plus_Digit in Hds. eauto.
  - intros (ds & -> & Hds). exists (str "/bytes/"), ds.
    split; [reflexivity|]. split; [now apply lang_Lit|now apply lang_plus_Digit].
Qed.

Lemma bytes_test_query base q :
  test_whole re_bytes (base ++ "?"%char :: q) = false.
Proof.
  destruct (test_whole re_bytes _) eqn:Ht; [|reflexivity].
  apply bytes_test_iff in Ht as (ds & E & _ & Hds).
  assert (Hin : In "?"%char (str "/bytes/" ++ ds)) by (rewrite <- E; apply in_elt).
  apply in_app_or in Hin as [Hin|Hin].
  - simpl in Hin. repeat (destruct Hin as [Hin|Hin]; [discriminate Hin|]). contradiction.
  - unfold all_digits in Hds. rewrite List.Forall_forall in Hds. apply Hds in Hin.
    rewrite question_mark_not_digit in Hin. discriminate.
Qed.

(** C3 as stated fails: the query string is not removed before the path
    tests.  [/a/5/301] is of the redirect form, but the request for
    [/a/5/301?x=1] is not classified as redirect; it gets the default. *)
Lemma classification_keeps_query :
  getTargetURL listening (request (str "/a/5/301?x=1")) = None
  /\ ~ (forall S req,
          IncomingMessage.headers req !! str "target-server" = None ->
          str_eqb (IncomingMessage.url req) (str "/raw")
            || startsWith (IncomingMessage.url req) (str "/raw/") = false ->
          str_eqb (IncomingMessage.url req) (str "/graphql") = false ->
          (exists prefix h code,
              redirect_path (strip_query (IncomingMessage.url req)) prefix h code) ->
          getTargetURL S req = Server.url (redirect S)).
Proof.
  split; [vm_compute; reflexivity|].
  intros H.
  specialize (H listening (request (str "/a/5/301?x=1"))).
  assert (E : getTargetURL listening (request (str "/a/5/301?x=1")) = None)
    by (vm_compute; reflexivity).
  rewrite E in H. discriminate H; try reflexivity.
  exists (str "/a"), (str "5"), (str "301").
  repeat split; try discriminate; repeat constructor.
Qed.

(** C3, amended.  Classification applies the path tests to the request URL
    as it is received, query string included.  For a request with no
    effective [target-server] override whose URL is neither [/raw], nor
    under [/raw/], nor [/graphql]: if the URL itself ends with
    [/<hops>/<statusCode>] it is classified as redirect; if it carries a query
    string (with no [/] in it) it is classified as default, whatever
    precedes the [?]. *)
Theorem classification_on_full_url S req :
  truthy (SERVERS_get S (IncomingMessage.headers req !! str "target-server")) = false ->
  str_eqb (IncomingMessage.url req) (str "/raw")
    || startsWith (IncomingMessage.url req) (str "/raw/") = false ->
  str_eqb (IncomingMessage.url req) (str "/graphql") = false ->
  ((exists prefix h code, redirect_path (IncomingMessage.url req) prefix h code) ->
   classify S req = ServerObject (redirect S)
   /\ getTargetURL S req = Server.url (redirect S))
  /\ (forall base q,
        IncomingMessage.url req = base ++ "?"%char :: q ->
        Forall (fun c => c <> slash) q ->
        classify S req = Undefined /\ getTargetURL S req = None).
Proof.
  intros Hh Hraw Hgql. split.
  - intros Hp. apply redirect_test_iff in Hp.
    assert (Hc : classify S req = ServerObject (redirect S))
      by (unfold classify; rewrite Hh, Hraw, Hgql, Hp; reflexivity).
    split; [exact Hc|]. rewrite getTargetURL_classify, Hc. reflexivity.
  - intros base q Hu Hq.
    assert (Hc : classify S req = Undefined).
    { unfold classify. rewrite Hh, Hraw, Hgql, Hu.
      rewrite (redirect_test_query _ _ Hq), bytes_test_query. reflexivity. }
    split; [exact Hc|]. rewrite getTargetURL_classify, Hc. reflexivity.
Qed.

Lemma classification_on_full_url_witness :
  (classify listening (request (str "/a/5/301")) = ServerObject (redirect listening)
   /\ getTargetURL listening (request (str "/a/5/301")) =
        Server.url (redirect listening))
  /\ classify listening (request (str "/a/5/301?x=1")) = Undefined
  /\ getTargetURL listening (request (str "/a/5/301?x=1")) = None.
Proof.
  split.
  - apply (proj1 (classification_on_full_url listening (request (str "/a/5/301"))
                    eq_refl eq_refl eq_refl)).
    exists (str "/a"), (str "5"), (str "301").
    repeat split; try discriminate; repeat constructor.
  - apply (proj2 (classification_on_full_url listening (request (str "/a/5/301?x=1"))
                    eq_refl eq_refl eq_refl) (str "/a/5/301") (str "x=1")).
    + reflexivity.
    + repeat constructor; discriminate.
Defined.

(** ** The bytes fixture *)

(** What the listener does when the size it reads is a tracked number
    within the bounds of [Buffer.alloc]. *)
Lemma bytes_run kMaxLength req n z :
  Number_ (index_from_end (split slash (IncomingMessage.url req)) 1) = Exactly n ->
  num_or_zero n = Int z ->
  0 <= z <= kMaxLength ->
  let buf := Buffer (repeat Byte.x00 (Z.to_nat z)) in
  createBytesServer_request kMaxLength req start =
    Ok tt {| res := {| ServerResponse.statusCode := 200;
                       ServerResponse.headers := [];
                       ServerResponse.body := [buf];
                       ServerResponse.finished := true |};
             calls := [WriteHead (Int 200) []; Write buf; End_ None] |}.
Proof.
  intros Hn Hz Hr buf. unfold createBytesServer_request. rewrite Hn.
  unfold tracked, mbind, M_bind, mret, M_ret. rewrite Hz.
  unfold Buffer_alloc.
  destruct (Z.leb_spec 0 z); [|lia]. destruct (Z.leb_spec z kMaxLength); [|lia].
  reflexivity.
Qed.

Lemma body_length_buffer sc hs n f :
  ServerResponse.body_length
    (ServerResponse.mk sc hs [Buffer (repeat Byte.x00 n)] f) = n.
Proof.
  unfold ServerResponse.body_length. simpl. rewrite repeat_length. lia.
Qed.

(** C9.  A request for [/bytes/1024] to the bytes fixture is answered with
    status 200 and a body of exactly 1024 bytes (on any Node whose buffers
    may be that long). *)
Theorem bytes_1024 kMaxLength req :
  1024 <= kMaxLength ->
  IncomingMessage.url req = str "/bytes/1024" ->
  exists w,
    createBytesServer_request kMaxLength req start = Ok tt w
    /\ ServerResponse.statusCode (res w) = 200
    /\ ServerResponse.finished (res w) = true
    /\ ServerResponse.body_length (res w) = 1024%nat.
Proof.
  intros Hk Hu. eexists. split.
  - apply (bytes_run kMaxLength req (Int 1024) 1024); [rewrite Hu; reflexivity|reflexivity|lia].
  - split; [reflexivity|]. split; [reflexivity|]. apply body_length_buffer.
Qed.

Lemma bytes_1024_witness :
  exists w,
    createBytesServer_request (2 ^ 31 - 1) (request (str "/bytes/1024")) start = Ok tt w
    /\ ServerResponse.statusCode (res w) = 200
    /\ ServerResponse.finished (res w) = true
    /\ ServerResponse.body_length (res w) = 1024%nat.
Proof.
  apply (bytes_1024 (2 ^ 31 - 1) (request (str "/bytes/1024"))).
  - lia.
  - reflexivity.
Defined.

(** C10.  For every request to the bytes fixture in whose URL the last
    segment is not a number ([Number] of it is [NaN]), the response has
    status 200 and a body of length 0: the size falls back to 0, no error
    is raised. *)
Theorem bytes_not_a_number kMaxLength req :
  0 <= kMaxLength ->
  Number_ (index_from_end (split slash (IncomingMessage.url req)) 1) = Exactly NaN ->
  exists w,
    createBytesServer_request kMaxLength req start = Ok tt w
    /\ ServerResponse.statusCode (res w) = 200
    /\ ServerResponse.finished (res w) = true
    /\ ServerResponse.body_length (res w) = 0%nat.
Proof.
  intros Hk Hn. eexists. split.
  - apply (bytes_run kMaxLength req NaN 0 Hn); [reflexivity|lia].
  - split; [reflexivity|]. split; [reflexivity|]. apply body_length_buffer.
Qed.

Lemma bytes_not_a_number_witness :
  exists w,
    createBytesServer_request (2 ^ 31 - 1) (request (str "/bytes/12px")) start = Ok tt w
    /\ ServerResponse.statusCode (res w) = 200
    /\ ServerResponse.finished (res w) = true
    /\ ServerResponse.body_length (res w) = 0%nat.
Proof.
  apply (bytes_not_a_number (2 ^ 31 - 1) (request (str "/bytes/12px"))).
  - lia.
  - vm_compute. reflexivity.
Defined.

(** ** The embedding on small inputs *)

Example split_url :
  split slash (str "/a/b/5/301") = [str ""; str "a"; str "b"; str "5"; str "301"].
Proof. reflexivity. Qed.

Example split_empty : split slash (str "") = [str ""].
Proof. reflexivity. Qed.

Example join_prefix : join slash [str ""; str "a"; str "b"] = str "/a/b".
Proof. reflexivity. Qed.

Example join_root : join slash (slice_0_m2 (split slash (str "/5/301"))) = str "".
Proof. reflexivity. Qed.

Example strip_query_url : strip_query (str "/a/5/301?x=1") = str "/a/5/301".
Proof. reflexivity. Qed.

Example re_redirect_tests :
  map (test_to_end re_redirect)
      [str "/a/b/5/301"; str "/5/301"; str "/a/05/007"; str "http://h/a/5/301";
       str "/a/b/5/301?x=1"; str "/a/b/5/3011"; str "/a/b/5/30"; str "/a/b5/301";
       str "/a/-1/301"; str "/a//301"; str "5/301"]
  = [true; true; true; true; false; false; false; false; false; false; false].
Proof. reflexivity. Qed.

Example re_bytes_tests :
  map (test_whole re_bytes)
      [str "/bytes/1024"; str "/bytes/0"; str "/bytes/"; str "/x/bytes/1024";
       str "/bytes/10?x"; str "/bytes/1e3"]
  = [true; true; false; false; false; false].
Proof. reflexivity. Qed.

Example parseInt10_samples :
  map parseInt10
      [Some (str "301"); Some (str "007"); Some (str "12px"); Some (str "  -4");
       Some (str "px"); Some (str ""); None; Some (str "9007199254740991");
       Some (str "9007199254740993")]
  = [Exactly (Int 301); Exactly (Int 7); Exactly (Int 12); Exactly (Int (-4));
     Exactly NaN; Exactly NaN; Exactly NaN; Exactly (Int 9007199254740991); Inexact].
Proof. vm_compute. reflexivity. Qed.

Example Number_samples :
  map Number_
      [Some (str "1024"); Some (str ""); Some (str " 12 "); Some (str "1e3");
       Some (str "0x10"); Some (str "-4"); Some (str "2.50e1"); Some (str ".5e1");
       Some (str "abc"); Some (str "12px"); Some (str "1 2"); Some (str "1e");
       Some (str "."); Some (str "0x"); Some (str "-0x10"); Some (str "1.5");
       Some (str "Infinity"); None]
  = [Exactly (Int 1024); Exactly (Int 0); Exactly (Int 12); Exactly (Int 1000);
     Exactly (Int 16); Exactly (Int (-4)); Exactly (Int 25); Exactly (Int 5);
     Exactly NaN; Exactly NaN; Exactly NaN; Exactly NaN;
     Exactly NaN; Exactly NaN; Exactly NaN; Inexact;
     Inexact; Exactly NaN].
Proof. vm_compute. reflexivity. Qed.

Example num_toString_samples :
  map num_toString [Int 0; Int 7; Int 301; Int (-12); Int 9007199254740991; NaN]
  = [str "0"; str "7"; str "301"; str "-12"; str "9007199254740991"; str "NaN"].
Proof. vm_compute. reflexivity. Qed.

Example SERVERS_get_samples :
  map (SERVERS_get listening)
      [Some (str "raw"); Some (str "ssl_renegotiation"); Some (str "nope");
       Some (str "constructor"); Some (str "__proto__"); Some (str "undefined"); None]
  = [ServerObject (raw listening); ServerObject (ssl_renegotiation listening); Undefined;
     Inherited (str "constructor"); Inherited (str "__proto__"); Undefined; Undefined].
Proof. vm_compute. reflexivity. Qed.

Example getTargetURL_samples :
  map (fun u => getTargetURL listening (request (str u)))
      [ "/raw"; "/raw/x"; "/rawx"; "/graphql"; "/graphql/"; "/a/5/301";
        "/bytes/10"; "/bytes/10/301"; "/"; "/raw?x" ]%string
  = [Some (str "http://localhost:8082"); Some (str "http://localhost:8082"); None;
     Some (str "http://localhost:40003"); None; Some (str "http://localhost:40002");
     Some (str "http://localhost:40001"); Some (str "http://localhost:40002"); None;
     None].
Proof. vm_compute. reflexivity. Qed.

Example bytes_negative_size :
  createBytesServer_request (2 ^ 31 - 1) (request (str "/bytes/-4")) start =
    Throws (ERR_OUT_OF_RANGE (Int (-4)))
           {| res := ServerResponse.fresh; calls := [WriteHead (Int 200) []] |}.
Proof. vm_compute. reflexivity. Qed.

Example redirect_control_character :
  createRedirectServer_request
    (request (str "/a" ++ ascii_of_nat 12 :: str "/5/301")) start =
    Throws (ERR_INVALID_CHAR (str "location"))
           {| res := {| ServerResponse.statusCode := 301;
                        ServerResponse.headers := [];
                        ServerResponse.body := [];
                        ServerResponse.finished := false |};
              calls := [Emit (str "hit");
                        WriteHead (Int 301)
                          [(str "location", str "/a" ++ ascii_of_nat 12 :: str "/4/301")]] |}.
Proof. vm_compute. reflexivity. Qed.

Example redirect_unsafe_hops :
  createRedirectServer_request (request (str "/a/9007199254740993/301")) start = Beyond.
Proof. vm_compute. reflexivity. Qed.

(** * Further properties of the servers *)

(** ** The raw echo server *)



(** The states a socket of the raw echo server goes through. *)
Inductive socket_phase : Socket.t -> Prop :=
| phase_idle : socket_phase Socket.fresh
| phase_waiting d :
    socket_phase {| Socket.data := Some d; Socket.timers := 1;
                    Socket.written := []; Socket.ended := false |}
| phase_answered d d' :
    socket_phase {| Socket.data := Some d'; Socket.timers := 0;
                    Socket.written := raw_echo d; Socket.ended := true |}.

Lemma socket_phase_step s e : socket_phase s -> socket_phase (socket_step s e).
Proof.
  intros H. destruct H as [|d|d d'], e as [c|]; try (cbn; constructor).
  unfold socket_step, createRawEchoServer_respond.
  cbn [Socket.timers Socket.data Socket.written Socket.ended].
  replace (_ ++ _) with (raw_echo d); [constructor|].
  unfold raw_echo. now destruct (startsWith d (str "HEAD / HTTP/1.1")).
Qed.

Lemma socket_phase_run es : forall s,
  socket_phase s -> socket_phase (fold_left socket_step es s).
Proof.
  induction es as [|e es IH]; intros s H; simpl; auto using socket_phase_step.
Qed.

(** X2.  On a socket of the raw echo server, whatever arrives and whenever
    timers fire: at most one timer is pending, nothing is written before the
    socket is ended, and an ended socket carries exactly one whole response
    and no pending timer. *)
Theorem raw_echo_single_response es :
  let s := socket_run es in
  (Socket.timers s <= 1)%nat
  /\ (Socket.ended s = false -> Socket.written s = [])
  /\ (Socket.ended s = true ->
      Socket.timers s = 0%nat /\ exists d, Socket.written s = raw_echo d).
Proof.
  cbv zeta. pose proof (socket_phase_run es _ phase_idle) as H.
  fold (socket_run es) in H. destruct H; cbn; repeat split; eauto; discriminate.
Qed.




(** ** The proxy server *)

Lemma proxy_denied url_parse options req :
  bool_decide (is_Some (ProxyOptions.auth options))
  && negb (bool_decide (IncomingMessage.headers req !! str "proxy-authorization"
                        = proxyAuthHeader options)) = true ->
  createProxyServer_request url_parse options req start = Ok None denied.
Proof.
  intros H. unfold createProxyServer_request. rewrite H. reflexivity.
Qed.

Lemma proxy_forwards url_parse options req :
  bool_decide (is_Some (ProxyOptions.auth options))
  && negb (bool_decide (IncomingMessage.headers req !! str "proxy-authorization"
                        = proxyAuthHeader options)) = false ->
  exists r, createProxyServer_request url_parse options req start = Ok (Some r) start
            /\ ClientRequest.headers r =
                 default ∅ (ProxyOptions.headers options)
                   ∪ delete (str "accept-encoding") (IncomingMessage.headers req).
Proof.
  intros H. unfold createProxyServer_request. rewrite H. eexists. split; reflexivity.
Qed.

(** X4.  The proxy server answers 407 with the text [Proxy Authentication
    Required], and forwards nothing, exactly when [options.auth] is set and
    the [proxy-authorization] header of the request is not [Basic] followed
    by the base64 of [username:password]; in every other case it forwards
    the request and writes nothing itself. *)
Theorem proxy_authentication url_parse options req :
  let refused :=
    exists username password,
      ProxyOptions.auth options = Some (username, password)
      /\ IncomingMessage.headers req !! str "proxy-authorization"
         <> Some (str "Basic " ++ base64 (utf8 (username ++ ":"%char :: password))) in
  (refused -> createProxyServer_request url_parse options req start = Ok None denied)
  /\ (~ refused ->
      exists r, createProxyServer_request url_parse options req start = Ok (Some r) start).
Proof.
  cbv zeta. split.
  - intros (username & password & Ha & Hh). apply proxy_denied.
    unfold proxyAuthHeader. rewrite Ha. apply andb_true_iff. split.
    + apply bool_decide_eq_true. eauto.
    + apply negb_true_iff, bool_decide_eq_false. exact Hh.
  - intros Hno.
    destruct (proxy_forwards url_parse options req) as (r & Hr & _); [|eauto].
    apply andb_false_iff.
    destruct (ProxyOptions.auth options) as [[username password]|] eqn:Ha.
    + right. apply negb_false_iff, bool_decide_eq_true.
      unfold proxyAuthHeader. rewrite Ha.
      destruct (decide (IncomingMessage.headers req !! str "proxy-authorization"
                        = Some (str "Basic "
                                  ++ base64 (utf8 (username ++ ":"%char :: password)))))
        as [E|E]; [exact E|].
      exfalso. apply Hno. eauto.
    + left. apply bool_decide_eq_false. intros [x Hx]. discriminate Hx.
Qed.

Lemma proxy_authentication_witness :
  createProxyServer_request
    (fun _ => Url.mk None None None)
    (ProxyOptions.mk (Some (str "user", str "pass")) None None false)
    (request (str "http://example.com/")) start = Ok None denied.
Proof.
  apply (proj1 (proxy_authentication
                  (fun _ => Url.mk None None None)
                  (ProxyOptions.mk (Some (str "user", str "pass")) None None false)
                  (request (str "http://example.com/")))).
  exists (str "user"), (str "pass"). split; [reflexivity|].
  vm_compute. discriminate.
Defined.

(** X5.  The headers of a request the proxy server forwards: a header of
    [options.headers] goes out with the value given there; the
    [accept-encoding] of the client never goes out; every other header of
    the client goes out unchanged. *)
Theorem proxy_forwarded_headers url_parse options req r w :
  createProxyServer_request url_parse options req start = Ok (Some r) w ->
  forall name,
    ClientRequest.headers r !! name =
      match default ∅ (ProxyOptions.headers options) !! name with
      | Some v => Some v
      | None =>
          if decide (name = str "accept-encoding") then None
          else IncomingMessage.headers req !! name
      end.
Proof.
  intros Hrun name.
  destruct (bool_decide (is_Some (ProxyOptions.auth options))
            && negb (bool_decide (IncomingMessage.headers req !! str "proxy-authorization"
                                  = proxyAuthHeader options))) eqn:E.
  - rewrite (proxy_denied _ _ _ E) in Hrun. discriminate Hrun.
  - destruct (proxy_forwards url_parse options req E) as (r' & Hr & Hh).
    rewrite Hr in Hrun. injection Hrun as -> _. rewrite Hh, lookup_union.
    destruct (default ∅ (ProxyOptions.headers options) !! name) as [v|] eqn:Ho.
    + now destruct (delete _ _ !! name).
    + destruct (decide (name = str "accept-encoding")) as [->|Hne].
      * now rewrite lookup_delete_eq.
      * rewrite lookup_delete_ne by congruence.
        now destruct (IncomingMessage.headers req !! name).
Qed.

Lemma proxy_forwarded_headers_witness :
  let options :=
    ProxyOptions.mk None (Some {[ str "proxy" := str "true" ]}) None false in
  let req :=
    IncomingMessage.mk (str "http://example.com/") (str "GET")
      (<[ str "accept-encoding" := str "gzip" ]> {[ str "x-test" := str "1" ]}) in
  let sent :=
    default ∅ (ProxyOptions.headers options)
      ∪ delete (str "accept-encoding") (IncomingMessage.headers req) in
  sent !! str "proxy" = Some (str "true")
  /\ sent !! str "accept-encoding" = None
  /\ sent !! str "x-test" = Some (str "1").
Proof.
  intros options req sent.
  pose proof (proxy_forwarded_headers
                (fun _ => Url.mk None None None) options req
                {| ClientRequest.https := false; ClientRequest.host := None;
                   ClientRequest.path := None; ClientRequest.port := None;
                   ClientRequest.method := str "get";
                   ClientRequest.headers := sent;
                   ClientRequest.family6 := false |}
                start eq_refl) as H.
  cbn [ClientRequest.headers] in H.
  repeat split; rewrite H; vm_compute; reflexivity.
Defined.

(** ** The redirect fixture: whole chains *)

Lemma redirect_test_trailing_slash p :
  test_to_end re_redirect (p ++ [slash]) = false.
Proof.
  destruct (test_to_end re_redirect _) eqn:Ht; [|reflexivity].
  apply redirect_test_iff in Ht as (q & h & code & E & _ & _ & Hlen & Hc).
  destruct code as [|c1 [|c2 [|c3 [|]]]]; try discriminate Hlen.
  change (q ++ slash :: h ++ slash :: [c1; c2; c3])
    with (q ++ (slash :: h) ++ [slash; c1; c2] ++ [c3]) in E.
  rewrite !app_assoc in E. apply app_inj_tail in E as [_ E].
  inversion_clear Hc as [|? ? _ Hc']. inversion_clear Hc' as [|? ? _ Hc''].
  inversion_clear Hc'' as [|? ? H3 _]. subst c3. discriminate H3.
Qed.

Lemma follow_terminal fuel p : follow (S fuel) (p ++ [slash]) = [res terminal].
Proof.
  cbn [follow]. rewrite redirect_no_match by apply redirect_test_trailing_slash.
  reflexivity.
Qed.

Lemma follow_redirect fuel prefix h code :
  redirect_path (prefix ++ slash :: h ++ slash :: code) prefix h code ->
  hd "0"%char code <> "0"%char ->
  digits_value h <= MAX_SAFE_INTEGER ->
  forallb valid_header_char prefix = true ->
  follow (S fuel) (prefix ++ slash :: h ++ slash :: code) =
    redirected (digits_value code)
               (redirect_location prefix (digits_value h) (digits_value code))
      :: follow fuel (redirect_location prefix (digits_value h) (digits_value code)).
Proof.
  intros Hp H0 Hsafe Hvalid. cbn [follow].
  rewrite (redirect_run_ok (request (prefix ++ slash :: h ++ slash :: code))
             prefix h code Hp H0 Hsafe Hvalid).
  cbv zeta. cbn [res]. rewrite location_single. reflexivity.
Qed.

Lemma decimal_nonempty n : 0 <= n -> decimal n <> [].
Proof.
  intros Hn E. unfold decimal in E. cbn [to_digits] in E.
  destruct (n <? 10); [discriminate|]. now apply app_eq_nil in E as [_ E].
Qed.

(** X6.  A chain asked for with [n >= 1] hops has exactly [n] redirects: a
    client that starts at [<prefix>/<n>/<code>] ([n] in decimal and a safe
    integer, [code] in 100..999, the prefix free of control characters) and
    follows every location gets [n] responses with status [code], to
    [<prefix>/<n-1>/<code>] down to [<prefix>/1/<code>] and then [<prefix>/],
    and after them the 200 with an empty body, where the chain stops. *)
Theorem redirect_chain prefix code n extra :
  length code = 3%nat -> all_digits code -> hd "0"%char code <> "0"%char ->
  forallb valid_header_char prefix = true ->
  (1 <= n)%nat -> Z.of_nat n <= MAX_SAFE_INTEGER ->
  follow (S n + extra) (prefix ++ slash :: decimal (Z.of_nat n) ++ slash :: code)
  = countdown prefix code n
  /\ length (countdown prefix code n) = S n.
Proof.
  intros Hlen Hc H0 Hvalid Hn Hsafe. split.
  2:{ clear. induction n as [|n IH]; [reflexivity|]. cbn [countdown length]. now rewrite IH. }
  destruct n as [|m]; [lia|]. clear Hn.
  assert (Hcode : code <> []) by (intros ->; discriminate).
  assert (Hstep : forall k fuel,
             0 < Z.of_nat k <= MAX_SAFE_INTEGER ->
             follow (S fuel) (prefix ++ slash :: decimal (Z.of_nat k) ++ slash :: code) =
               redirected (digits_value code)
                          (redirect_location prefix (Z.of_nat k) (digits_value code))
                 :: follow fuel (redirect_location prefix (Z.of_nat k) (digits_value code))).
  { intros k fuel Hk.
    destruct (decimal_spec (Z.of_nat k)) as (Hd & Hv & _); [lia|].
    rewrite follow_redirect; rewrite ?Hv; auto; [|lia].
    repeat split; auto. apply decimal_nonempty. lia. }
  induction m as [|m IH].
  - cbn [Nat.add]. rewrite Hstep by (unfold MAX_SAFE_INTEGER; lia).
    cbn [countdown]. f_equal.
    change (redirect_location prefix (Z.of_nat 1) (digits_value code))
      with (prefix ++ [slash]).
    apply follow_terminal.
  - cbn [Nat.add]. rewrite Hstep by lia.
    cbn [countdown]. f_equal.
    replace (redirect_location prefix (Z.of_nat (S (S m))) (digits_value code))
      with (prefix ++ slash :: decimal (Z.of_nat (S m)) ++ slash :: code).
    + apply IH. lia.
    + unfold redirect_location. destruct (Z.ltb_spec 1 (Z.of_nat (S (S m)))); [|lia].
      rewrite (status_code_toString code) by assumption.
      replace (Z.of_nat (S (S m)) - 1) with (Z.of_nat (S m)) by lia.
      unfold num_toString. destruct (Z.ltb_spec (Z.of_nat (S m)) 0); [lia|reflexivity].
Qed.

Lemma redirect_chain_witness :
  follow (S 12 + 3) (str "/x" ++ slash :: decimal (Z.of_nat 12) ++ slash :: str "307")
  = countdown (str "/x") (str "307") 12
  /\ length (countdown (str "/x") (str "307") 12) = 13%nat.
Proof.
  apply (redirect_chain (str "/x") (str "307") 12 3).
  - reflexivity.
  - repeat constructor.
  - discriminate.
  - reflexivity.
  - lia.
  - vm_compute. discriminate.
Defined.

(** ** The bytes fixture: every size *)

Lemma last_segment (p seg : jsstring) :
  Forall (fun c => c <> slash) seg ->
  index_from_end (split slash (p ++ slash :: seg)) 1 = Some seg.
Proof.
  intros H. rewrite split_app_sep, (split_no_sep slash seg H).
  unfold index_from_end. rewrite length_app. simpl length.
  destruct (Nat.ltb_spec (length (split slash p) + 1) 1); [lia|].
  replace (length (split slash p) + 1 - 1)%nat with (length (split slash p)) by lia.
  rewrite nth_error_app2 by lia. now rewrite Nat.sub_diag.
Qed.

Lemma trim_start_not_white c s : is_white c = false -> trim_start (c :: s) = c :: s.
Proof. intros H. simpl. now rewrite H. Qed.

Lemma trim_unchanged s first last_ middle :
  s = first :: middle -> rev s = last_ :: rev (removelast s) ->
  is_white first = false -> is_white last_ = false -> trim s = s.
Proof.
  intros -> Hrev Hf Hl. unfold trim.
  rewrite (trim_start_not_white _ _ Hf), Hrev, (trim_start_not_white _ _ Hl), <- Hrev.
  apply rev_involutive.
Qed.

Lemma rev_last_first (s : jsstring) :
  s <> [] -> exists l, rev s = l :: rev (removelast s) /\ In l s.
Proof.
  intros Hne. destruct (exists_last Hne) as (s' & l & ->).
  exists l. rewrite rev_app_distr, removelast_last. split; [reflexivity|].
  apply in_or_app. right. now left.
Qed.

Lemma trim_digits sign ds :
  ds <> [] -> all_digits ds -> is_white sign = false ->
  trim (sign :: ds) = sign :: ds /\ trim ds = ds.
Proof.
  intros Hne Hd Hs.
  assert (Hw : forall c, In c ds -> is_white c = false).
  { intros c Hin. apply digit_not_white.
    unfold all_digits in Hd. rewrite List.Forall_forall in Hd. auto. }
  split.
  - destruct (rev_last_first (sign :: ds)) as (l & Hrev & Hin); [discriminate|].
    eapply trim_unchanged; eauto.
    destruct (exists_last Hne) as (ds' & l' & ->).
    rewrite app_comm_cons, rev_app_distr in Hrev. injection Hrev as <- _.
    apply Hw. apply in_or_app. right. now left.
  - destruct ds as [|c ds]; [contradiction|].
    destruct (rev_last_first (c :: ds)) as (l & Hrev & Hin); [discriminate|].
    eapply trim_unchanged; eauto. apply Hw. now left.
Qed.


Lemma unsigned_decimal_digits negative ds :
  ds <> [] -> all_digits ds -> 0 < digits_value ds ->
  unsigned_decimal negative ds = safe_int (signed negative (digits_value ds)).
Proof.
  intros Hne Hd Hpos. unfold unsigned_decimal.
  rewrite (span_all is_digit ds Hd), app_nil_r.
  destruct ds as [|c ds]; [contradiction|].
  cbn [exponent_part length Z.of_nat]. unfold decimal_number.
  destruct (Z.eqb_spec (digits_value (c :: ds)) 0); [lia|].
  cbn [Z.sub Z.opp Z.add Z.leb Z.compare]. rewrite Z.pow_0_r, Z.mul_1_r. reflexivity.
Qed.

Lemma not_Infinity ds : all_digits ds -> str_eqb ds (str "Infinity") = false.
Proof.
  intros Hd. apply bool_decide_eq_false. intros ->.
  inversion_clear Hd as [|? ? H _]. discriminate H.
Qed.

Lemma Number_trimmed (s : jsstring) :
  trim s = s -> s <> [] ->
  Number_ (Some s) =
    match non_decimal s with
    | Some n => n
    | None =>
        let (negative, u) := strip_sign s in
        if str_eqb u (str "Infinity") then Inexact else unsigned_decimal negative u
    end.
Proof.
  intros Ht Hne. unfold Number_. rewrite Ht. destruct s; [contradiction|reflexivity].
Qed.


(** [Number] of a minus sign and a run of digits that is not zero. *)
Lemma Number_negative (ds : jsstring) :
  ds <> [] -> all_digits ds -> 0 < digits_value ds ->
  Number_ (Some ("-"%char :: ds)) = safe_int (- digits_value ds).
Proof.
  intros Hne Hd Hpos.
  destruct (trim_digits "-"%char ds Hne Hd eq_refl) as [Ht _].
  etransitivity; [apply (Number_trimmed _ Ht); discriminate|].
  cbn [non_decimal strip_sign]. rewrite (not_Infinity ds Hd).
  now rewrite unsigned_decimal_digits.
Qed.



(** X8.  The bytes fixture answers a URL that ends with a slash, whose last
    segment is empty, with status 200 and an empty body: [Number] of the
    empty string is 0. *)
Theorem bytes_trailing_slash kMaxLength req p :
  0 <= kMaxLength ->
  IncomingMessage.url req = p ++ [slash] ->
  exists w,
    createBytesServer_request kMaxLength req start = Ok tt w
    /\ ServerResponse.statusCode (res w) = 200
    /\ ServerResponse.finished (res w) = true
    /\ ServerResponse.body_length (res w) = 0%nat.
Proof.
  intros Hk Hu. eexists. split.
  - apply (bytes_run kMaxLength req (Int 0) 0); [|reflexivity|lia].
    rewrite Hu, (last_segment p []) by constructor. reflexivity.
  - split; [reflexivity|]. split; [reflexivity|]. apply body_length_buffer.
Qed.

Lemma bytes_trailing_slash_witness :
  exists w,
    createBytesServer_request (2 ^ 31 - 1) (request (str "/bytes/")) start = Ok tt w
    /\ ServerResponse.statusCode (res w) = 200
    /\ ServerResponse.finished (res w) = true
    /\ ServerResponse.body_length (res w) = 0%nat.
Proof.
  apply (bytes_trailing_slash (2 ^ 31 - 1) (request (str "/bytes/")) (str "/bytes")).
  - lia.
  - reflexivity.
Defined.

(** X9.  A negative size is not degraded to 0: for a URL whose last segment
    is a minus sign and digits of a value other than zero, the listener
    has written the head with status 200 when [Buffer.alloc] throws its
    [RangeError]; nothing is written to the body and the response is never
    ended. *)
Theorem bytes_negative kMaxLength req (p ds : jsstring) :
  IncomingMessage.url req = p ++ slash :: "-"%char :: ds ->
  ds <> [] -> all_digits ds ->
  0 < digits_value ds <= MAX_SAFE_INTEGER ->
  createBytesServer_request kMaxLength req start =
    Throws (ERR_OUT_OF_RANGE (Int (- digits_value ds)))
           {| res := ServerResponse.fresh; calls := [WriteHead (Int 200) []] |}.
Proof.
  intros Hu Hne Hd Hv.
  assert (HN : Number_ (index_from_end (split slash (IncomingMessage.url req)) 1)
               = Exactly (Int (- digits_value ds))).
  { rewrite Hu.
    etransitivity; [apply f_equal, last_segment|].
    { constructor; [discriminate|now apply digits_no_slash]. }
    etransitivity; [apply Number_negative; auto; lia|].
    unfold safe_int. rewrite Z.abs_neq by lia.
    destruct (Z.leb_spec (- - digits_value ds) MAX_SAFE_INTEGER); [reflexivity|lia]. }
  unfold createBytesServer_request. rewrite HN.
  unfold tracked, mbind, M_bind, mret, M_ret, Buffer_alloc, num_or_zero.
  cbv beta iota.
  destruct (Z.leb_spec 0 (- digits_value ds)); [lia|]. reflexivity.
Qed.

Lemma bytes_negative_witness :
  createBytesServer_request (2 ^ 31 - 1) (request (str "/bytes/-4")) start =
    Throws (ERR_OUT_OF_RANGE (Int (- digits_value (str "4"))))
           {| res := ServerResponse.fresh; calls := [WriteHead (Int 200) []] |}.
Proof.
  apply (bytes_negative (2 ^ 31 - 1) (request (str "/bytes/-4")) (str "/bytes") (str "4")).
  - reflexivity.
  - discriminate.
  - repeat constructor.
  - vm_compute. split; [reflexivity|discriminate].
Defined.

(** ** The router: where requests can go *)

Lemma SERVERS_get_cases S key :
  SERVERS_get S key = Undefined
  \/ (exists k, SERVERS_get S key = Inherited k)
  \/ (exists s, SERVERS_get S key = ServerObject s /\ In s (registered S)).
Proof.
  unfold SERVERS_get, registered. repeat case_if; eauto; right; right;
    eexists; (split; [reflexivity|]); simpl; tauto.
Qed.

Lemma classify_cases S req :
  classify S req = Undefined
  \/ (exists k, classify S req = Inherited k)
  \/ (exists s, classify S req = ServerObject s /\ In s (registered S)).
Proof.
  unfold classify.
  destruct (SERVERS_get_cases S (IncomingMessage.headers req !! str "target-server"))
    as [E|[(k & E)|(s & E & Hs)]]; rewrite E; cbn [truthy]; eauto.
  unfold registered. repeat case_if; eauto; right; right;
    eexists; (split; [reflexivity|]); simpl; tauto.
Qed.

(** X10.  The router forwards to registered servers only: whenever its
    listener hands a request to the proxy, the target is the [url] of one
    of the five server objects of [SERVERS], whatever the URL and the
    headers of the request are. *)
Theorem router_targets S J req w target :
  responseHandler_request S J req start = Ok tt w ->
  In (ProxyWeb target) (calls w) ->
  exists s, In s (registered S) /\ Server.url s = Some target.
Proof.
  intros Hrun Hin.
  destruct (responseHandler_returns S J req) as [He|(u & Hu & Hf)].
  - rewrite He in Hrun. injection Hrun as <-.
    destruct Hin as [E|[E|[]]]; discriminate E.
  - rewrite Hf in Hrun. injection Hrun as <-.
    destruct Hin as [E|[]]. injection E as <-.
    rewrite getTargetURL_classify in Hu.
    destruct (classify_cases S req) as [E|[(k & E)|(s & E & Hs)]];
      rewrite E in Hu; try discriminate Hu.
    eauto.
Qed.

Lemma router_targets_witness :
  exists s, In s (registered listening) /\ Server.url s = Some (str "http://localhost:8082").
Proof.
  apply (router_targets listening (fun _ => []) (request (str "/raw/x")) 
           (forwarded (str "http://localhost:8082")) (str "http://localhost:8082")).
  - vm_compute. reflexivity.
  - left. reflexivity.
Defined.

(** X11.  With every registered server listening, the router answers with
    the JSON echo exactly in two cases: the [target-server] header names a
    property inherited from [Object.prototype]; or the header is absent or
    names nothing, and the URL is neither [/raw] nor under [/raw/], not
    [/graphql], not of the redirect form and not of the bytes form.  Every
    other request is forwarded. *)
Theorem router_echo_cases S J req :
  (forall s, In s (registered S) -> Server.port s <> None) ->
  let header := IncomingMessage.headers req !! str "target-server" in
  let u := IncomingMessage.url req in
  responseHandler_request S J req start = Ok tt (echo J req)
  <-> (exists k, SERVERS_get S header = Inherited k)
      \/ (SERVERS_get S header = Undefined
          /\ raw_path u = false
          /\ str_eqb u (str "/graphql") = false
          /\ test_to_end re_redirect u = false
          /\ test_whole re_bytes u = false).
Proof.
  intros Hl header u. subst header u.
  assert (Hurl : forall s, In s (registered S) -> Server.url s <> None).
  { intros s Hs. specialize (Hl s Hs). unfold Server.url.
    destruct (Server.port s); [discriminate|contradiction]. }
  unfold raw_path. split.
  - intros Hrun.
    assert (Hg : getTargetURL S req = None).
    { destruct (getTargetURL S req) as [t|] eqn:E; [|reflexivity].
      rewrite (responseHandler_forwards S J req t E) in Hrun. discriminate Hrun. }
    unfold getTargetURL in Hg.
    destruct (SERVERS_get_cases S (IncomingMessage.headers req !! str "target-server"))
      as [E|[(k & E)|(s & E & Hs)]]; rewrite E in Hg; cbn [truthy value_url] in Hg.
    + right. split; [exact E|].
      repeat match type of Hg with
             | (if ?b then _ else _) = None =>
                 destruct b eqn:?;
                 [exfalso; revert Hg; apply Hurl; unfold registered; simpl; tauto|]
             end.
      auto.
    + left. eauto.
    + exfalso. revert Hg. now apply Hurl.
  - intros [(k & E)|(E & Hraw & Hgql & Hred & Hby)]; apply responseHandler_echoes;
      unfold getTargetURL; rewrite E; cbn [truthy value_url]; [reflexivity|].
    now rewrite Hraw, Hgql, Hred, Hby.
Qed.

Lemma router_echo_cases_witness :
  responseHandler_request listening (fun _ => []) (request (str "/status")) start =
    Ok tt (echo (fun _ => []) (request (str "/status"))).
Proof.
  apply (router_echo_cases listening (fun _ => []) (request (str "/status"))).
  - intros s Hs. simpl in Hs.
    repeat (destruct Hs as [<-|Hs]; [discriminate|]). contradiction.
  - right. vm_compute. repeat split.
Defined.

Lemma last_separator_unique (sep : ascii) x y a b :
  x ++ sep :: y = a ++ sep :: b ->
  Forall (fun c => c <> sep) y -> Forall (fun c => c <> sep) b ->
  x = a /\ y = b.
Proof.
  intros E Hy Hb.
  assert (Hyb : exists y', y = y' ++ b).
  { apply (app_sep_suffix sep (a ++ [sep]) x y b); [|exact Hb].
    now rewrite <- app_assoc. }
  assert (Hby : exists b', b = b' ++ y).
  { apply (app_sep_suffix sep (x ++ [sep]) a b y); [|exact Hy].
    now rewrite <- app_assoc. }
  destruct Hyb as (y' & Ey), Hby as (b' & Eb).
  assert (y' = []).
  { apply (f_equal (@length ascii)) in Ey, Eb. rewrite length_app in Ey, Eb.
    destruct y'; [reflexivity|]. simpl in Ey. lia. }
  subst y'. simpl in Ey. subst y. split; [|reflexivity].
  now apply app_inv_tail in E.
Qed.

Lemma bytes_not_redirect u :
  test_whole re_bytes u = true -> test_to_end re_redirect u = false.
Proof.
  intros Hb. apply bytes_test_iff in Hb as (ds & -> & Hne & Hds).
  destruct (test_to_end re_redirect _) eqn:Ht; [|reflexivity].
  apply redirect_test_iff in Ht as (q & h & code & E & Hh & Hhd & _ & Hc).
  change (str "/bytes/" ++ ds) with (str "/bytes" ++ slash :: ds) in E.
  change (q ++ slash :: h ++ slash :: code) with (q ++ (slash :: h) ++ slash :: code) in E.
  rewrite app_assoc in E. symmetry in E.
  apply last_separator_unique in E as [E _]; auto using digits_no_slash.
  destruct (exists_last Hh) as (h' & d & ->).
  unfold all_digits in Hhd. apply Forall_app in Hhd as [_ Hd].
  change (q ++ slash :: h' ++ [d]) with (q ++ (slash :: h') ++ [d]) in E.
  rewrite app_assoc in E.
  change (str "/bytes") with (str "/byte" ++ ["s"%char]) in E.
  apply app_inj_tail in E as [_ ->].
  inversion_clear Hd as [|? ? H _]. discriminate H.
Qed.

(** X12.  The path tests of [getTargetURL] overlap in one place only.  A
    URL of the bytes form is not of the redirect form, is not [/graphql]
    and is not a raw path; [/graphql] is neither of the redirect form nor a
    raw path; [/raw] is not of the redirect form.  So the order of the
    tests decides only between what lies under [/raw/] and the redirect
    form, and there the raw fixture wins. *)
Theorem path_tests_overlap u :
  (test_whole re_bytes u = true ->
     test_to_end re_redirect u = false
     /\ str_eqb u (str "/graphql") = false
     /\ raw_path u = false)
  /\ (str_eqb u (str "/graphql") = true ->
        test_to_end re_redirect u = false /\ raw_path u = false)
  /\ (str_eqb u (str "/raw") = true -> test_to_end re_redirect u = false)
  /\ (forall S req,
        IncomingMessage.url req = u ->
        truthy (SERVERS_get S (IncomingMessage.headers req !! str "target-server")) = false ->
        startsWith u (str "/raw/") = true ->
        getTargetURL S req = Server.url (raw S)).
Proof.
  split; [|split; [|split]].
  - intros Hb. split; [now apply bytes_not_redirect|].
    apply bytes_test_iff in Hb as (ds & -> & Hne & Hds).
    destruct ds as [|d ds]; [contradiction|]. inversion_clear Hds as [|? ? Hd _].
    split.
    + apply bool_decide_eq_false. intros E. cbn in E. discriminate E.
    + unfold raw_path. apply orb_false_iff. split; [|reflexivity].
      apply bool_decide_eq_false. intros E. cbn in E. discriminate E.
  - intros E. apply str_eqb_eq in E as ->. split; reflexivity.
  - intros E. apply str_eqb_eq in E as ->. reflexivity.
  - intros S req Hu Hh Hraw. unfold getTargetURL. rewrite Hh, Hu, Hraw.
    now rewrite orb_true_r.
Qed.

Lemma path_tests_overlap_witness :
  test_to_end re_redirect (str "/raw/5/301") = true
  /\ getTargetURL listening (request (str "/raw/5/301")) = Server.url (raw listening).
Proof.
  split; [reflexivity|].
  apply (proj2 (proj2 (proj2 (path_tests_overlap (str "/raw/5/301"))))
           listening (request (str "/raw/5/301"))); reflexivity.
Defined.

(** X13.  A [target-server] header whose value is neither one of the five
    names registered in [SERVERS] nor the name of a property of
    [Object.prototype] has no effect: the target of the request is the one
    of the same request without the header. *)
Theorem target_server_ignored S req name :
  IncomingMessage.headers req !! str "target-server" = Some name ->
  ~ In name own_keys -> ~ In name Object_prototype ->
  getTargetURL S req =
    getTargetURL S {| IncomingMessage.url := IncomingMessage.url req;
                      IncomingMessage.method := IncomingMessage.method req;
                      IncomingMessage.headers :=
                        delete (str "target-server") (IncomingMessage.headers req) |}.
Proof.
  intros Hh Hown Hproto. apply (target_server_unregistered S req name Hh).
  unfold SERVERS_get. cbn [property_key].
  repeat match goal with
         | |- context [str_eqb name ?lit] =>
             destruct (str_eqb name lit) eqn:E;
             [apply str_eqb_eq in E; exfalso; apply Hown; rewrite E;
              unfold own_keys; simpl; tauto|clear E]
         end.
  destruct (bool_decide (name ∈ Object_prototype)) eqn:E; [|reflexivity].
  apply bool_decide_eq_true in E. exfalso. apply Hproto. now apply list_elem_of_In.
Qed.

Lemma target_server_ignored_witness :
  getTargetURL listening (request_for (str "nowhere") (str "/graphql")) =
    getTargetURL listening
      {| IncomingMessage.url := str "/graphql";
         IncomingMessage.method := str "GET";
         IncomingMessage.headers :=
           delete (str "target-server") {[ str "target-server" := str "nowhere" ]} |}.
Proof.
  apply (target_server_ignored listening (request_for (str "nowhere") (str "/graphql"))
           (str "nowhere")).
  - apply lookup_singleton_eq.
  - intros H. simpl in H. repeat (destruct H as [H|H]; [discriminate H|]). contradiction.
  - intros H. simpl in H. repeat (destruct H as [H|H]; [discriminate H|]). contradiction.
Defined.

(** ** Events named by the path *)

Lemma strip_query_plain base :
  Forall (fun c => c <> "?"%char) base -> strip_query base = base.
Proof.
  induction 1 as [|c base Hc _ IH]; [reflexivity|]. cbn [strip_query].
  destruct (Ascii.eqb_spec c "?"); [contradiction|]. now rewrite IH.
Qed.

Lemma skip_line_end q :
  Forall (fun c => is_line_terminator c = false) q -> skip_line q = [].
Proof.
  induction 1 as [|c q Hc _ IH]; [reflexivity|]. cbn [skip_line]. now rewrite Hc.
Qed.

Lemma strip_query_query base q :
  Forall (fun c => c <> "?"%char) base ->
  Forall (fun c => is_line_terminator c = false) q ->
  strip_query (base ++ "?"%char :: q) = base.
Proof.
  intros Hb Hq. induction Hb as [|c base Hc _ IH]; cbn [strip_query app].
  - now apply skip_line_end.
  - destruct (Ascii.eqb_spec c "?"); [contradiction|]. now rewrite IH.
Qed.

(** X14.  A server made by [createHTTPServer] names its event by the path
    alone: a request for [<path>?<query>] (no [?] in the path, no line
    break in the query) emits the same event as the request for [<path>],
    the one named [<path>].  A server made by [createSSLServer] names it by
    the whole URL, so there the two requests emit different events. *)
Theorem http_event_ignores_query (base q : jsstring) method headers :
  Forall (fun c => c <> "?"%char) base ->
  Forall (fun c => is_line_terminator c = false) q ->
  let plain := IncomingMessage.mk base method headers in
  let queried := IncomingMessage.mk (base ++ "?"%char :: q) method headers in
  createHTTPServer_request queried start =
    Ok tt {| res := ServerResponse.fresh; calls := [Emit base] |}
  /\ createHTTPServer_request queried start = createHTTPServer_request plain start
  /\ createSSLServer_request queried start <> createSSLServer_request plain start.
Proof.
  intros Hb Hq plain queried.
  assert (E1 : createHTTPServer_request queried start =
               Ok tt {| res := ServerResponse.fresh; calls := [Emit base] |}).
  { unfold createHTTPServer_request, queried. cbn [IncomingMessage.url].
    now rewrite strip_query_query. }
  split; [exact E1|]. split.
  - rewrite E1. unfold createHTTPServer_request, plain. cbn [IncomingMessage.url].
    now rewrite strip_query_plain.
  - unfold createSSLServer_request, plain, queried, emit, record, start.
    cbn [IncomingMessage.url calls res app]. intros E. injection E as E.
    apply (f_equal (@length ascii)) in E. rewrite length_app in E. simpl in E. lia.
Qed.

Lemma http_event_ignores_query_witness :
  createHTTPServer_request (request (str "/foo?a=1&b=2")) start =
    Ok tt {| res := ServerResponse.fresh; calls := [Emit (str "/foo")] |}
  /\ createHTTPServer_request (request (str "/foo?a=1&b=2")) start =
       createHTTPServer_request (request (str "/foo")) start
  /\ createSSLServer_request (request (str "/foo?a=1&b=2")) start <>
       createSSLServer_request (request (str "/foo")) start.
Proof.
  apply (http_event_ignores_query (str "/foo") (str "a=1&b=2") (str "GET") ∅).
  - repeat constructor; discriminate.
  - repeat constructor.
Defined.

(** ** The GraphQL server *)

Section GraphQLFacts.

Context {json result reason errors : Type}.
Variable toString : list Byte.byte -> jsstring.
Variable JSON_parse : jsstring -> option json.
Variable is_null : json -> bool.
Variable get : json -> jsstring -> option json.
Variable graphql : option json -> option json -> option json -> result + reason.
Variable result_errors : result -> option errors.
Variable JSON_stringify : graphql_reply result reason errors -> jsstring.

Local Abbreviation exchange :=
  (graphql_exchange json result reason errors toString JSON_parse is_null get graphql
     result_errors JSON_stringify).
Local Abbreviation handler :=
  (graphql_responseHandler json result reason errors toString JSON_parse is_null get
     graphql result_errors JSON_stringify).

Lemma graphql_chunks cs : forall acc,
  fold_left (fun chunks c => graphql_data c chunks) cs (Some acc) = Some (acc ++ cs).
Proof.
  induction cs as [|c cs IH]; intros acc; simpl.
  - now rewrite app_nil_r.
  - unfold graphql_data at 2. simpl. rewrite IH, <- app_assoc. reflexivity.
Qed.

(** The chunks are put together in the order they came. *)
Lemma graphql_exchange_received req cs : exchange req cs = handler req (received cs).
Proof.
  unfold graphql_exchange, graphql_end.
  destruct cs as [|c cs]; [reflexivity|].
  cbn [fold_left]. unfold graphql_data at 2. cbn [default app].
  rewrite graphql_chunks. reflexivity.
Qed.

(** X15.  What the GraphQL server does with a request whose body came in
    the chunks [cs]: either a [TypeError] escapes, and then the body was
    JSON for [null]; or it answers, always as [application/json], with the
    request's headers and body echoed, and then the status is 200 with the
    result exactly when the body is JSON, the promise of the engine is
    fulfilled and the result has no [errors], and 400 with an error in
    every other case. *)
Theorem graphql_exchange_cases req cs :
  let text := toString <$> received cs in
  let request := {| GraphQLRequest.headers := IncomingMessage.headers req;
                    GraphQLRequest.body := text |} in
  let fulfilled data :=
    exists j, text ≫= JSON_parse = Some j
              /\ graphql (get j (str "query")) (get j (str "variables"))
                         (get j (str "operationName")) = inl data
              /\ result_errors data = None in
  match exchange req cs with
  | TypeError => exists j, text ≫= JSON_parse = Some j /\ is_null j = true
  | Responds m =>
      exists w,
        m start = Ok tt w
        /\ ServerResponse.headers (res w) = [(str "content-type", str "application/json")]
        /\ ServerResponse.finished (res w) = true
        /\ ((exists data,
               ServerResponse.statusCode (res w) = 200
               /\ ServerResponse.body (res w) =
                    [Text (JSON_stringify (Success _ _ _ request data))]
               /\ fulfilled data)
            \/ (exists error,
                  ServerResponse.statusCode (res w) = 400
                  /\ ServerResponse.body (res w) =
                       [Text (JSON_stringify (Bad_request _ _ _ request error))]
                  /\ forall data, ~ fulfilled data))
  end.
Proof.
  cbv zeta. rewrite graphql_exchange_received.
  unfold graphql_responseHandler.
  destruct ((toString <$> received cs) ≫= JSON_parse) as [j|] eqn:Hj.
  - destruct (is_null j) eqn:Hn; [eauto|].
    destruct (graphql _ _ _) as [data|err] eqn:Hg.
    + destruct (result_errors data) as [e|] eqn:He.
      * eexists. split; [reflexivity|]. split; [reflexivity|]. split; [reflexivity|].
        right. eexists. split; [reflexivity|]. split; [reflexivity|].
        intros data' (j' & Hj' & Hg' & He'). congruence.
      * eexists. split; [reflexivity|]. split; [reflexivity|]. split; [reflexivity|].
        left. exists data. split; [reflexivity|]. split; [reflexivity|]. eauto.
    + eexists. split; [reflexivity|]. split; [reflexivity|]. split; [reflexivity|].
      right. eexists. split; [reflexivity|]. split; [reflexivity|].
      intros data' (j' & Hj' & Hg' & He'). congruence.
  - eexists. split; [reflexivity|]. split; [reflexivity|]. split; [reflexivity|].
    right. eexists. split; [reflexivity|]. split; [reflexivity|].
    intros data' (j' & Hj' & _). discriminate Hj'.
Qed.

(** X16.  The GraphQL server throws, instead of answering, exactly on a
    body that is JSON for [null]; a request without a body, and a body that
    is not JSON, are answered 400 with [Invalid JSON body], the engine not
    being asked. *)
Theorem graphql_null_body req cs :
  (exchange req cs = TypeError
   <-> exists j, received cs ≫= (fun b => JSON_parse (toString b)) = Some j
                 /\ is_null j = true)
  /\ (received cs ≫= (fun b => JSON_parse (toString b)) = None ->
      exchange req cs =
        Responds
          (badRequest result reason errors JSON_stringify
             {| GraphQLRequest.headers := IncomingMessage.headers req;
                GraphQLRequest.body := toString <$> received cs |}
             (Invalid_JSON_body _ _))).
Proof.
  rewrite graphql_exchange_received. unfold graphql_responseHandler.
  assert (E : (toString <$> received cs) ≫= JSON_parse
              = received cs ≫= (fun b => JSON_parse (toString b)))
    by now destruct (received cs).
  rewrite E. split; [split|].
  - destruct (received cs ≫= _) as [j|]; [|discriminate].
    destruct (is_null j) eqn:Hn; [eauto|discriminate].
  - intros (j & -> & ->). reflexivity.
  - intros ->. reflexivity.
Qed.

End GraphQLFacts.

(** ** The options of the TLS servers *)

Section SSLOptionsFacts.

Variable path_join : jsstring -> jsstring -> jsstring.
Variable dirname : jsstring.
Variable readFileSync : option_value -> option (list Byte.byte).

Local Abbreviation load := (load_file readFileSync).

Lemma load_file_lookup file options options' :
  load file options = Some options' ->
  forall name,
    options' !! name =
      if decide (name = file) then
        if falsy (default OUndefined (options !! file)) then options !! file
        else OBuffer <$> readFileSync (default OUndefined (options !! file))
      else options !! name.
Proof.
  unfold load_file. intros H name.
  destruct (falsy (default OUndefined (options !! file))) eqn:Hf.
  - injection H as <-. now destruct (decide (name = file)) as [->|].
  - destruct (readFileSync _) as [contents|]; [|discriminate H].
    injection H as <-. destruct (decide (name = file)) as [->|Hne].
    + now rewrite lookup_insert_eq.
    + now rewrite lookup_insert_ne.
Qed.

(** X17.  When [createSSLServer] gets its options read, each of [key],
    [cert], [ca] and [pfx] that is set, in [opts] or else by default, holds
    the contents of the file it named, and every other option holds what
    [opts] gives for it, or else the default; an option of [opts] always
    wins over the default. *)
Theorem createSSLServer_options_lookup opts final :
  createSSLServer_options path_join dirname readFileSync opts = Some final ->
  forall name,
    let merged := default ∅ opts ∪ ssl_defaults path_join dirname in
    final !! name =
      if bool_decide (In name optionsWithFilePath)
         && negb (falsy (default OUndefined (merged !! name)))
      then OBuffer <$> readFileSync (default OUndefined (merged !! name))
      else merged !! name.
Proof.
  intros H name. cbv zeta.
  unfold createSSLServer_options, optionsWithFilePath in H. cbn [map fold_left] in H.
  cbn [mbind option_bind] in H.
  set (merged := default ∅ opts ∪ ssl_defaults path_join dirname) in *.
  destruct (load (str "key") merged) as [m1|] eqn:E1;
    [|cbn [mbind option_bind] in H; discriminate H].
  cbn [mbind option_bind] in H.
  destruct (load (str "cert") m1) as [m2|] eqn:E2;
    [|cbn [mbind option_bind] in H; discriminate H].
  cbn [mbind option_bind] in H.
  destruct (load (str "ca") m2) as [m3|] eqn:E3;
    [|cbn [mbind option_bind] in H; discriminate H].
  cbn [mbind option_bind] in H.
  pose proof (load_file_lookup _ _ _ E1) as L1.
  pose proof (load_file_lookup _ _ _ E2) as L2.
  pose proof (load_file_lookup _ _ _ E3) as L3.
  pose proof (load_file_lookup _ _ _ H) as L4.
  rewrite L4. rewrite !L3, !L2, !L1.
  assert (Hin : In name optionsWithFilePath
                <-> name = str "key" \/ name = str "cert" \/ name = str "ca"
                    \/ name = str "pfx").
  { unfold optionsWithFilePath. simpl. intuition congruence. }
  assert (Hcases : name = str "key" \/ name = str "cert" \/ name = str "ca"
                   \/ name = str "pfx" \/ ~ In name optionsWithFilePath).
  { rewrite Hin.
    destruct (decide (name = str "key")), (decide (name = str "cert")),
      (decide (name = str "ca")), (decide (name = str "pfx")); tauto. }
  destruct Hcases as [->|[->|[->|[->|Hno]]]].
  1-4: rewrite bool_decide_eq_true_2 by (apply Hin; tauto); cbn [andb];
       repeat case_decide;
       try match goal with
           | E : str _ = str _ |- _ => cbn in E; discriminate E
           | E : ?a <> ?a |- _ => contradiction E; reflexivity
           end;
       match goal with
       | |- context [falsy ?v] => destruct (falsy v); reflexivity
       end.
  rewrite bool_decide_eq_false_2 by exact Hno. cbn [andb].
  repeat case_decide; try (exfalso; apply Hno, Hin; tauto). reflexivity.
Qed.

Lemma ssl_defaults_other name :
  ~ In name optionsWithFilePath -> ssl_defaults path_join dirname !! name = None.
Proof.
  intros Hno. unfold ssl_defaults.
  rewrite !lookup_insert_ne, lookup_singleton_ne; [reflexivity|..];
    intros E; apply Hno; rewrite <- E; unfold optionsWithFilePath; simpl; tauto.
Qed.

(** X18.  When [createSSLRenegotiationServer] gets its options read, an
    option that names no file holds what [opts] gives for it, and else the
    default of the renegotiation server: [requestCert] and
    [rejectUnauthorized] false and [secureProtocol] [TLSv1_2_method]; an
    option present in [opts] always wins. *)
Theorem createSSLRenegotiationServer_options_lookup opts final :
  createSSLRenegotiationServer_options path_join dirname readFileSync opts
    = Some final ->
  forall name,
    ~ In name optionsWithFilePath ->
    final !! name =
      match default ∅ opts !! name with
      | Some v => Some v
      | None => renegotiation_defaults !! name
      end.
Proof.
  intros H name Hno.
  unfold createSSLRenegotiationServer_options, createSSLServer_options,
    optionsWithFilePath in H.
  cbn [map fold_left default] in H. cbn [mbind option_bind] in H.
  match type of H with
  | context [load_file _ (str "key") ?m] => set (merged := m) in H
  end.
  destruct (load (str "key") merged) as [m1|] eqn:E1;
    [|cbn [mbind option_bind] in H; discriminate H].
  cbn [mbind option_bind] in H.
  destruct (load (str "cert") m1) as [m2|] eqn:E2;
    [|cbn [mbind option_bind] in H; discriminate H].
  cbn [mbind option_bind] in H.
  destruct (load (str "ca") m2) as [m3|] eqn:E3;
    [|cbn [mbind option_bind] in H; discriminate H].
  cbn [mbind option_bind] in H.
  rewrite (load_file_lookup _ _ _ H), !(load_file_lookup _ _ _ E3),
    !(load_file_lookup _ _ _ E2), !(load_file_lookup _ _ _ E1).
  repeat case_decide;
    try (exfalso; apply Hno; subst name; unfold optionsWithFilePath; simpl; tauto).
  subst merged. rewrite lookup_union_l by now apply ssl_defaults_other.
  unfold id. rewrite lookup_union.
  destruct (default ∅ opts !! name), (renegotiation_defaults !! name); reflexivity.
Qed.

End SSLOptionsFacts.

Lemma createSSLServer_options_lookup_witness :
  let path_join := fun a b : jsstring => a ++ slash :: b in
  let readFileSync := fun file =>
    match file with
    | OString _ => Some [Byte.x2d]
    | _ => None
    end in
  let options := createSSLServer_options path_join (str "/srv") readFileSync None in
  options = Some (default ∅ options)
  /\ default ∅ options !! str "key" = Some (OBuffer [Byte.x2d])
  /\ default ∅ options !! str "pfx" = None.
Proof.
  intros path_join readFileSync options.
  assert (E : options = Some (default ∅ options)) by (vm_compute; reflexivity).
  split; [exact E|].
  split;
    rewrite (createSSLServer_options_lookup path_join (str "/srv") readFileSync
               None (default ∅ options) E);
    vm_compute; reflexivity.
Defined.

Lemma createSSLRenegotiationServer_options_lookup_witness :
  let path_join := fun a b : jsstring => a ++ slash :: b in
  let readFileSync := fun file =>
    match file with
    | OString _ => Some [Byte.x2d]
    | _ => None
    end in
  let opts : gmap jsstring option_value := {[ str "requestCert" := OBoolean true ]} in
  let options :=
    createSSLRenegotiationServer_options path_join (str "/srv") readFileSync
      (Some opts) in
  options = Some (default ∅ options)
  /\ ~ In (str "requestCert") optionsWithFilePath
  /\ default ∅ options !! str "requestCert" = Some (OBoolean true)
  /\ default ∅ options !! str "secureProtocol" = Some (OString (str "TLSv1_2_method")).
Proof.
  intros path_join readFileSync opts options.
  assert (E : options = Some (default ∅ options)) by (vm_compute; reflexivity).
  assert (Hno : forall name, name = str "requestCert" \/ name = str "secureProtocol" ->
                  ~ In name optionsWithFilePath).
  { intros name [->| ->]; unfold optionsWithFilePath; simpl;
      intros [F|[F|[F|[F|[]]]]]; discriminate F. }
  split; [exact E|].
  split; [apply Hno; left; reflexivity|].
  split;
    rewrite (createSSLRenegotiationServer_options_lookup path_join (str "/srv")
               readFileSync (Some opts) (default ∅ options) E)
      by (apply Hno; tauto);
    vm_compute; reflexivity.
Defined.

(** ** The hello service of the gRPC server *)

Lemma LotsOfGreetings_from greetings : forall response,
  fold_left LotsOfGreetings_data greetings response =
    response ++ List.concat (map (fun g => str "Hello " ++ g ++ str " - ") greetings).
Proof.
  induction greetings as [|g gs IH]; intros response; simpl.
  - now rewrite app_nil_r.
  - rewrite IH. unfold LotsOfGreetings_data. now rewrite <- !app_assoc.
Qed.

(** X19.  The reply of [LotsOfGreetings] is one [Hello <greeting> - ] per
    message received, in the order of arrival, and the empty string when
    the stream brought none; so the reply to two streams put end to end
    is the two replies put end to end. *)
Theorem LotsOfGreetings_reply greetings more :
  LotsOfGreetings greetings =
    List.concat (map (fun g => str "Hello " ++ g ++ str " - ") greetings)
  /\ LotsOfGreetings (greetings ++ more) = LotsOfGreetings greetings ++ LotsOfGreetings more.
Proof.
  unfold LotsOfGreetings. split.
  - now rewrite LotsOfGreetings_from.
  - rewrite !LotsOfGreetings_from, map_app, concat_app. reflexivity.
Qed.
